(** * train_models.py: the GG-CNN training driver

    A shallow embedding of [src/train_models.py] ([parse_args], [run],
    [main]) and the properties of its orchestration logic.

    The script is glue over collaborators that live outside the file
    (argparse, torch, tensorboardX, torchsummary, [get_dataset],
    [get_network], [train], [validate], the file system).  They are modelled
    as an environment [fw] that answers every call, given the history of the
    calls made so far, with a returned value or a raised exception.  The
    script itself is a computation that appends to that history. *)

From Stdlib Require Import ZArith List String Ascii Bool Lia.
From Stdlib Require Import Floats.SpecFloat.
Import ListNotations.
Open Scope string_scope.
Open Scope Z_scope.

(** ** Python floats: IEEE-754 binary64 *)

Module PyFloat.

Definition float := spec_float.

Definition prec : Z := 53.
Definition emax : Z := 1024.

(** The literals [0.0] and [1.0]. *)
Definition zero : float := S754_zero false.
Definition one : float := S754_finite false 4503599627370496 (-52).

(** [a > b] on floats ([False] when either side is a NaN). *)
Definition gtb (a b : float) : bool := SFltb b a.

(** The float nearest to [a / b] (ties to even) for ints [a] and [b <> 0],
    which is what [int.__truediv__] computes; an infinity when the
    quotient is out of range. *)
Definition int_quotient (a b : Z) : float :=
  let sign := xorb (a <? 0) (b <? 0) in
  match Z.abs a, Z.abs b with
  | Zpos ma, Zpos mb =>
      let '(mz, ez, lz) := SFdiv_core_binary prec emax (Zpos ma) 0 (Zpos mb) 0 in
      binary_round_aux prec emax sign mz ez lz
  | _, _ => S754_zero sign
  end.

End PyFloat.

Definition float : Set := PyFloat.float.

(** ** Python string formatting *)

Module PyStr.

Fixpoint repeat_char (c : ascii) (n : nat) : string :=
  match n with
  | O => EmptyString
  | S n' => String c (repeat_char c n')
  end.

Definition digit_char (d : Z) : ascii := ascii_of_nat (48 + Z.to_nat d).

(** Decimal digits of a non-negative integer, most significant first;
    [fuel] bounds the number of digits. *)
Fixpoint digits_aux (fuel : nat) (n : Z) (acc : string) : string :=
  match fuel with
  | O => acc
  | S fuel' =>
      let acc' := String (digit_char (n mod 10)) acc in
      if n / 10 =? 0 then acc' else digits_aux fuel' (n / 10) acc'
  end.

Definition digits (n : Z) : string :=
  digits_aux (S (Z.to_nat (Z.log2 n))) n EmptyString.

(** Left-pad with ['0'] up to [width] characters. *)
Definition zfill (width : nat) (s : string) : string :=
  repeat_char "0" (width - String.length s) ++ s.

(** ['%d' % n].  CPython from 3.11 on raises [ValueError], by default,
    for an int of more than 4300 digits; for an int within that limit the
    string is this one. *)
Definition format_d (n : Z) : string :=
  if n <? 0 then "-" ++ digits (- n) else digits n.

(** ['%0<width>d' % n], also ['{:0<width>d}'.format(n)]: the sign counts
    in the width and the zeros go after it. *)
Definition format_0d (width : nat) (n : Z) : string :=
  if n <? 0 then "-" ++ zfill (width - 1) (digits (- n))
  else zfill width (digits n).

(** The integer nearest to [m * 2^e * 10^p], ties to even. *)
Definition round_scaled (m : positive) (e : Z) (p : nat) : Z :=
  let num := Zpos m * 10 ^ Z.of_nat p in
  if 0 <=? e then num * 2 ^ e
  else
    let den := 2 ^ (- e) in
    let q := num / den in
    let r := num mod den in
    match 2 * r ?= den with
    | Lt => q
    | Gt => q + 1
    | Eq => if Z.even q then q else q + 1
    end.

(** [n / 10^p] written with [p] decimals. *)
Definition fixed_point (n : Z) (p : nat) : string :=
  let ds := zfill (S p) (digits n) in
  let k := (String.length ds - p)%nat in
  match p with
  | O => ds
  | _ => substring 0 k ds ++ "." ++ substring k p ds
  end.

(** ['%.<p>f' % x]; the flag ['0'] of ['%0.2f'] pads nothing, since no
    width is given. *)
Definition format_f (p : nat) (x : float) : string :=
  match x with
  | S754_nan => "nan"
  | S754_infinity s => if s then "-inf" else "inf"
  | S754_zero s => (if s then "-" else "") ++ fixed_point 0 p
  | S754_finite s m e => (if s then "-" else "") ++ fixed_point (round_scaled m e p) p
  end.

Definition is_lower (c : ascii) : bool :=
  let n := nat_of_ascii c in (97 <=? n)%nat && (n <=? 122)%nat.
Definition is_upper (c : ascii) : bool :=
  let n := nat_of_ascii c in (65 <=? n)%nat && (n <=? 90)%nat.
Definition to_upper (c : ascii) : ascii :=
  if is_lower c then ascii_of_nat (nat_of_ascii c - 32) else c.
Definition to_lower (c : ascii) : ascii :=
  if is_upper c then ascii_of_nat (nat_of_ascii c + 32) else c.

(** [s.title()] on ASCII text: a letter that follows a letter is
    lower-cased, any other letter is upper-cased. *)
Fixpoint title_aux (prev_cased : bool) (s : string) : string :=
  match s with
  | EmptyString => EmptyString
  | String c s' =>
      let cased := is_lower c || is_upper c in
      String (if prev_cased then to_lower c else to_upper c) (title_aux cased s')
  end.
Definition title (s : string) : string := title_aux false s.

Definition is_space (c : ascii) : bool :=
  let n := nat_of_ascii c in
  (n =? 32)%nat || ((9 <=? n)%nat && (n <=? 13)%nat) || ((28 <=? n)%nat && (n <=? 31)%nat).

(** [s.split()]: the maximal runs of non-whitespace characters. *)
Fixpoint split_aux (s : string) (cur : string) : list string :=
  match s with
  | EmptyString => if (String.length cur =? 0)%nat then [] else [cur]
  | String c s' =>
      if is_space c
      then (if (String.length cur =? 0)%nat then split_aux s' "" else cur :: split_aux s' "")
      else split_aux s' (cur ++ String c "")
  end.
Definition split (s : string) : list string := split_aux s "".

Definition ends_with_slash (a : string) : bool :=
  match get (String.length a - 1) a with
  | Some c => Ascii.eqb c "/"
  | None => false
  end.

(** [os.path.join(a, b)] (posixpath). *)
Definition os_path_join (a b : string) : string :=
  if prefix "/" b then b
  else if (String.length a =? 0)%nat || ends_with_slash a then a ++ b
  else a ++ "/" ++ b.

(** [Path(p).joinpath(seg).as_posix()] for a normalised path [p] and a
    relative segment [seg] without ['.'] or empty components. *)
Definition joinpath (p seg : string) : string :=
  if String.eqb p "." then seg
  else if ends_with_slash p then p ++ seg
  else p ++ "/" ++ seg.

End PyStr.

(** ** The data the script handles *)

(** The namespace that [parse_args] returns: one attribute per
    [add_argument]. *)
Record Args := {
  network : string;
  dataset : string;
  dataset_path : string;
  use_depth : Z;
  use_rgb : Z;
  split : float;
  ds_rotate : float;
  num_workers : Z;
  batch_size : Z;
  epochs : Z;
  batches_per_epoch : Z;
  val_batches : Z;
  description : string;
  vis : bool
}.

(** Attribute assignments [args.<name> = v]. *)
Definition set_network (a : Args) (v : string) : Args :=
  {| network := v; dataset := dataset a; dataset_path := dataset_path a;
     use_depth := use_depth a; use_rgb := use_rgb a; split := split a;
     ds_rotate := ds_rotate a; num_workers := num_workers a;
     batch_size := batch_size a; epochs := epochs a;
     batches_per_epoch := batches_per_epoch a; val_batches := val_batches a;
     description := description a; vis := vis a |}.
Definition set_epochs (a : Args) (v : Z) : Args :=
  {| network := network a; dataset := dataset a; dataset_path := dataset_path a;
     use_depth := use_depth a; use_rgb := use_rgb a; split := split a;
     ds_rotate := ds_rotate a; num_workers := num_workers a;
     batch_size := batch_size a; epochs := v;
     batches_per_epoch := batches_per_epoch a; val_batches := val_batches a;
     description := description a; vis := vis a |}.
Definition set_dataset (a : Args) (v : string) : Args :=
  {| network := network a; dataset := v; dataset_path := dataset_path a;
     use_depth := use_depth a; use_rgb := use_rgb a; split := split a;
     ds_rotate := ds_rotate a; num_workers := num_workers a;
     batch_size := batch_size a; epochs := epochs a;
     batches_per_epoch := batches_per_epoch a; val_batches := val_batches a;
     description := description a; vis := vis a |}.
Definition set_description (a : Args) (v : string) : Args :=
  {| network := network a; dataset := dataset a; dataset_path := dataset_path a;
     use_depth := use_depth a; use_rgb := use_rgb a; split := split a;
     ds_rotate := ds_rotate a; num_workers := num_workers a;
     batch_size := batch_size a; epochs := epochs a;
     batches_per_epoch := batches_per_epoch a; val_batches := val_batches a;
     description := v; vis := vis a |}.
Definition set_dataset_path (a : Args) (v : string) : Args :=
  {| network := network a; dataset := dataset a; dataset_path := v;
     use_depth := use_depth a; use_rgb := use_rgb a; split := split a;
     ds_rotate := ds_rotate a; num_workers := num_workers a;
     batch_size := batch_size a; epochs := epochs a;
     batches_per_epoch := batches_per_epoch a; val_batches := val_batches a;
     description := description a; vis := vis a |}.

(** The dict that [train] returns: ['loss'] and ['losses'] (a dict, in
    insertion order). *)
Record train_results := {
  train_loss : float;
  train_losses : list (string * float)
}.

(** The dict that [validate] returns: the counts ['correct'] and
    ['failed'], ['loss'] and ['losses']. *)
Record test_results := {
  correct : Z;
  failed : Z;
  val_loss : float;
  val_losses : list (string * float)
}.

(** What a collaborator can hand back.  Framework objects (the summary
    writer, datasets, loaders, the network, the device, the optimizer,
    file objects) are opaque: [VObj]. *)
Inductive value :=
| VNone
| VBool (b : bool)
| VObj (id : nat)
| VTrain (r : train_results)
| VTest (r : test_results)
| VNamespace (a : Args).

Inductive exn :=
| ZeroDivisionError
| OverflowError
| TypeError
| Raised (name : string).

Inductive outcome (A : Type) :=
| Ret (a : A)
| Raise (e : exn).
Arguments Ret {A} a.
Arguments Raise {A} e.

(** What an [add_argument] stores: a value of its [type] with its
    [default], or [True] for a flag with [action='store_true']. *)
Inductive arg_action :=
| store_str (default : string)
| store_int (default : Z)
| store_float (default : float)
| store_true.

(** One [add_argument] of the parser. *)
Record argument := {
  arg_flag : string;
  arg_action_of : arg_action;
  arg_help : string
}.

(** The double quote character, as a string. *)
Definition dquote : string := String (ascii_of_nat 34) EmptyString.

(** The calls the script makes, with the arguments it passes. *)
Inductive call :=
| ArgumentParser_parse_args (description : string) (arguments : list argument)
| SummaryWriter (log_folder : string)
| logging_info (msg : string)
| get_dataset (name : string)
| Dataset (cls : value) (file_path : string) (start end_ rotate : float)
          (random_rotate random_zoom : bool) (include_depth include_rgb : Z)
| DataLoader (ds : value) (batch : Z) (shuffle : bool) (workers : Z)
| get_network (name : string)
| Network (cls : value) (input_channels : Z)
| torch_device (name : string)
| net_to (net device : value)
| net_parameters (net : value)
| optim_Adam (params : value)
| summary (net : value) (input_size : Z * Z * Z)
| open_ (path mode : string)
| file_close (f : value)
| train (epoch : Z) (net device train_data optimizer : value)
        (batches : Z) (vis_ : bool)
| tb_add_scalar (tb : value) (tag : string) (v : float) (step : Z)
| validate (net device val_data : value) (batches : Z)
| torch_save (obj : value) (path : string)
| net_state_dict (net : value)
| Path_exists (path : string)
| shutil_rmtree (path : string)
| Path_mkdir (path : string) (parents : bool)
| print (a : Args).

(** What the outside world sees of a run: each call with its outcome, and
    the two assignments to [sys.stdout] ([None] stands for
    [sys.__stdout__]). *)
Inductive event :=
| Ev (c : call) (r : outcome value)
| SetStdout (target : option value).

Definition history := list event.

(** ** Computations *)

(** A computation reads the history so far and yields the events it adds
    and its outcome. *)
Definition M (A : Type) : Type := history -> list event * outcome A.

Definition ret {A} (a : A) : M A := fun _ => ([], Ret a).

Definition raise {A} (e : exn) : M A := fun _ => ([], Raise e).

Definition bind {A B} (m : M A) (k : A -> M B) : M B :=
  fun h =>
    match m h with
    | (d1, Ret a) => let '(d2, r) := k a (h ++ d1)%list in ((d1 ++ d2)%list, r)
    | (d1, Raise e) => (d1, Raise e)
    end.

Notation "x <- m ;; k" := (bind m (fun x => k))
  (at level 61, m at next level, right associativity).
Notation "m ;;; k" := (bind m (fun _ => k))
  (at level 61, right associativity).

(** [for x in xs: s = body(x, s)] *)
Fixpoint for_each {A S} (xs : list A) (body : A -> S -> M S) (s : S) : M S :=
  match xs with
  | [] => ret s
  | x :: xs' => s' <- body x s ;; for_each xs' body s'
  end.

(** [range(n)] *)
Definition range (n : Z) : list Z := map Z.of_nat (seq 0 (Z.to_nat n)).

(** [a / b] on ints. *)
Definition int_truediv (a b : Z) : M float :=
  if b =? 0 then raise ZeroDivisionError
  else match PyFloat.int_quotient a b with
       | S754_finite s m e => ret (S754_finite s m e)
       | S754_zero s => ret (S754_zero s)
       | _ => raise OverflowError
       end.

(** The results of the parser, of [train] and of [validate], as the
    script reads them.  The collaborators are expected to return a
    namespace, a dict with ['loss'] and ['losses'], and a dict with
    ['correct'], ['failed'], ['loss'] and ['losses'].  For any other value
    Python fails when the script first reads what is missing, with an
    [AttributeError], a [KeyError] or a [TypeError] according to the value;
    the embedding renders each of these failures as [TypeError], raised
    before any further call. *)
Definition as_train_results (v : value) : M train_results :=
  match v with VTrain r => ret r | _ => raise TypeError end.
Definition as_test_results (v : value) : M test_results :=
  match v with VTest r => ret r | _ => raise TypeError end.
Definition as_namespace (v : value) : M Args :=
  match v with VNamespace a => ret a | _ => raise TypeError end.

(** Truth value of an object. *)
Definition truthy (v : value) : bool :=
  match v with
  | VNone => false
  | VBool b => b
  | _ => true
  end.

Definition emit (ev : event) : M unit := fun _ => ([ev], Ret tt).

(** ** The script *)

Section Script.

(** The collaborators: the outcome of a call, given what happened
    before it. *)
Variable fw : history -> call -> outcome value.

Definition do_call (c : call) : M value :=
  fun h => let r := fw h c in ([Ev c r], r).

(** The arguments declared by [parse_args], in source order. *)
Definition parser_arguments : list argument :=
  [ {| arg_flag := "--network"; arg_action_of := store_str "ggcnn";
       arg_help := "Network Name in .models" |};
    {| arg_flag := "--dataset"; arg_action_of := store_str "";
       arg_help := "Dataset Name (" ++ dquote ++ "cornell" ++ dquote ++ " or "
                   ++ dquote ++ "jaquard" ++ dquote ++ ")" |};
    {| arg_flag := "--dataset-path"; arg_action_of := store_str "";
       arg_help := "Path to dataset" |};
    {| arg_flag := "--use-depth"; arg_action_of := store_int 1;
       arg_help := "Use Depth image for training (1/0)" |};
    {| arg_flag := "--use-rgb"; arg_action_of := store_int 0;
       arg_help := "Use RGB image for training (0/1)" |};
    {| arg_flag := "--split";
       arg_action_of := store_float (PyFloat.int_quotient 9 10);
       arg_help := "Fraction of data for training (remainder is validation)" |};
    {| arg_flag := "--ds-rotate"; arg_action_of := store_float PyFloat.zero;
       arg_help := "Shift the start point of the dataset to use a different test/train split for cross validation." |};
    {| arg_flag := "--num-workers"; arg_action_of := store_int 8;
       arg_help := "Dataset workers" |};
    {| arg_flag := "--batch-size"; arg_action_of := store_int 8;
       arg_help := "Batch size" |};
    {| arg_flag := "--epochs"; arg_action_of := store_int 50;
       arg_help := "Training epochs" |};
    {| arg_flag := "--batches-per-epoch"; arg_action_of := store_int 1000;
       arg_help := "Batches per Epoch" |};
    {| arg_flag := "--val-batches"; arg_action_of := store_int 250;
       arg_help := "Validation Batches" |};
    {| arg_flag := "--description"; arg_action_of := store_str "";
       arg_help := "Training description" |};
    {| arg_flag := "--vis"; arg_action_of := store_true;
       arg_help := "Visualise the training process" |} ].

Definition parse_args : M Args :=
  ns <- do_call (ArgumentParser_parse_args "Train GG-CNN" parser_arguments) ;;
  as_namespace ns.

(** ['epoch_%02d_iou_%0.2f' % (epoch, iou)] *)
Definition checkpoint_name (epoch : Z) (iou : float) : string :=
  "epoch_" ++ PyStr.format_0d 2 epoch ++ "_iou_" ++ PyStr.format_f 2 iou.

(** ['epoch_%02d_iou_%0.2f_statedict.pt' % (epoch, iou)] *)
Definition statedict_name (epoch : Z) (iou : float) : string :=
  "epoch_" ++ PyStr.format_0d 2 epoch ++ "_iou_" ++ PyStr.format_f 2 iou
    ++ "_statedict.pt".

(** The test of line 126: [iou > best_iou or epoch == 0 or (epoch % 10) == 0]. *)
Definition save_condition (iou best_iou : float) (epoch : Z) : bool :=
  PyFloat.gtb iou best_iou || (epoch =? 0) || (epoch mod 10 =? 0).

(** [for n, l in losses.items(): tb.add_scalar(prefix + n, l, epoch)] *)
Definition log_losses (tb : value) (prefix : string)
    (losses : list (string * float)) (epoch : Z) : M unit :=
  for_each losses
    (fun nl _ => do_call (tb_add_scalar tb (prefix ++ fst nl) (snd nl) epoch) ;;; ret tt)
    tt.

(** The body of the epoch loop (lines 102 to 130); it takes [best_iou]
    and yields its value after the iteration. *)
Definition epoch_body (args : Args) (save_folder : string)
    (tb net device train_data val_data optimizer : value)
    (epoch : Z) (best_iou : float) : M float :=
  do_call (logging_info ("Beginning Epoch " ++ PyStr.format_0d 2 epoch)) ;;;
  tr <- do_call (train epoch net device train_data optimizer
                   (batches_per_epoch args) (vis args)) ;;
  train_results <- as_train_results tr ;;
  do_call (tb_add_scalar tb "loss/train_loss" (train_loss train_results) epoch) ;;;
  log_losses tb "train_loss/" (train_losses train_results) epoch ;;;
  do_call (logging_info "Validating...") ;;;
  te <- do_call (validate net device val_data (val_batches args)) ;;
  test_results <- as_test_results te ;;
  q <- int_truediv (correct test_results) (correct test_results + failed test_results) ;;
  do_call (logging_info
             (PyStr.format_d (correct test_results) ++ "/"
              ++ PyStr.format_d (correct test_results + failed test_results)
              ++ " = " ++ PyStr.format_f 6 q)) ;;;
  q' <- int_truediv (correct test_results) (correct test_results + failed test_results) ;;
  do_call (tb_add_scalar tb "loss/IOU" q' epoch) ;;;
  do_call (tb_add_scalar tb "loss/val_loss" (val_loss test_results) epoch) ;;;
  log_losses tb "val_loss/" (val_losses test_results) epoch ;;;
  iou <- int_truediv (correct test_results) (correct test_results + failed test_results) ;;
  if save_condition iou best_iou epoch then
    do_call (torch_save net
               (PyStr.os_path_join save_folder (checkpoint_name epoch iou))) ;;;
    sd <- do_call (net_state_dict net) ;;
    do_call (torch_save sd
               (PyStr.os_path_join save_folder (statedict_name epoch iou))) ;;;
    ret iou
  else ret best_iou.

(** The epoch loop (lines 100 to 130), yielding the last [best_iou]. *)
Definition epoch_loop (args : Args) (save_folder : string)
    (tb net device train_data val_data optimizer : value) : M float :=
  for_each (range (epochs args))
    (epoch_body args save_folder tb net device train_data val_data optimizer)
    PyFloat.zero.

Definition run (args : Args) (save_folder log_folder : string) : M unit :=
  tb <- do_call (SummaryWriter log_folder) ;;
  do_call (logging_info ("Loading " ++ PyStr.title (dataset args) ++ " Dataset...")) ;;;
  Dataset_ <- do_call (get_dataset (dataset args)) ;;
  train_dataset <- do_call (Dataset Dataset_ (dataset_path args)
                              PyFloat.zero (split args) (ds_rotate args)
                              true true (use_depth args) (use_rgb args)) ;;
  train_data <- do_call (DataLoader train_dataset (batch_size args) true
                           (num_workers args)) ;;
  val_dataset <- do_call (Dataset Dataset_ (dataset_path args)
                            (split args) PyFloat.one (ds_rotate args)
                            true true (use_depth args) (use_rgb args)) ;;
  val_data <- do_call (DataLoader val_dataset 1 false (num_workers args)) ;;
  do_call (logging_info "Done") ;;;
  do_call (logging_info "Loading Network...") ;;;
  let input_channels := 1 * use_depth args + 3 * use_rgb args in
  ggcnn <- do_call (get_network (network args)) ;;
  net0 <- do_call (Network ggcnn input_channels) ;;
  device <- do_call (torch_device "cuda:0") ;;
  net <- do_call (net_to net0 device) ;;
  params <- do_call (net_parameters net) ;;
  optimizer <- do_call (optim_Adam params) ;;
  do_call (logging_info "Done") ;;;
  do_call (summary net (input_channels, 300, 300)) ;;;
  f <- do_call (open_ (PyStr.os_path_join save_folder "arch.txt") "w") ;;
  emit (SetStdout (Some f)) ;;;
  do_call (summary net (input_channels, 300, 300)) ;;;
  emit (SetStdout None) ;;;
  do_call (file_close f) ;;;
  epoch_loop args save_folder tb net device train_data val_data optimizer ;;;
  ret tt.

(** The module constants, over the directory [home] that [Path.home()]
    gives. *)
Definition GMDATA_PATH (home : string) : string :=
  PyStr.joinpath home "Project/gmdata".
Definition DATASET_PATH (home : string) : string :=
  PyStr.joinpath (GMDATA_PATH home) "datasets/train_datasets".
Definition INPUT_DATA_PATH (home : string) : string :=
  PyStr.joinpath (DATASET_PATH home) "gg_data/small_data".
Definition OUT_PATH (home : string) : string :=
  PyStr.joinpath (GMDATA_PATH home) "datasets/models/gg/small_data".

(** The body of the loop of [main]; [args] is one object, assigned to
    in every iteration. *)
Definition main_body (home : string) (t : string) (args : Args) : M Args :=
  let args := set_dataset args (if String.eqb t "cor" then "cornell" else "jacquard") in
  let args := set_description args ("train " ++ t) in
  let args := set_dataset_path args (PyStr.joinpath (INPUT_DATA_PATH home) t) in
  let save_folder := PyStr.joinpath (OUT_PATH home) t in
  let log_folder := PyStr.joinpath (PyStr.joinpath (OUT_PATH home) t) "logs" in
  ex <- do_call (Path_exists save_folder) ;;
  (if truthy ex then do_call (shutil_rmtree save_folder) else ret VNone) ;;;
  do_call (Path_mkdir log_folder true) ;;;
  do_call (print args) ;;;
  run args save_folder log_folder ;;;
  ret args.

Definition main (home : string) : M unit :=
  args <- parse_args ;;
  let args := set_network args "ggcnn" in
  let args := set_epochs args 100 in
  for_each (PyStr.split "gmd cor jaq") (main_body home) args ;;;
  ret tt.

End Script.

(** ** Reasoning about computations *)

(** Every event that [m] adds satisfies [P], whatever happened before. *)
Definition emits {A} (P : event -> Prop) (m : M A) : Prop :=
  forall h, Forall P (fst (m h)).

(** An event [ev] with [bad ev x] ends the computation: it is the last
    event, and [x] is raised. *)
Definition stops_at {A} (bad : event -> exn -> Prop) (m : M A) : Prop :=
  forall h ev x,
    In ev (fst (m h)) -> bad ev x ->
    snd (m h) = Raise x /\ exists d0, fst (m h) = (d0 ++ [ev])%list.

(** A completed loop, iteration by iteration: the events of each
    iteration and the state it leaves. *)
Inductive iterates {A S} (body : A -> S -> M S) :
  list A -> S -> history -> list (list event) -> S -> Prop :=
| iterates_nil s h : iterates body [] s h [] s
| iterates_cons x xs s h d s1 ds s' :
    body x s h = (d, Ret s1) ->
    iterates body xs s1 (h ++ d)%list ds s' ->
    iterates body (x :: xs) s h (d :: ds) s'.

Section Rules.

Context {A B : Type}.

Lemma bind_Ret_inv (m : M A) (k : A -> M B) h d b :
  bind m k h = (d, Ret b) ->
  exists d1 a d2,
    m h = (d1, Ret a) /\ k a (h ++ d1)%list = (d2, Ret b) /\ d = (d1 ++ d2)%list.
Proof.
  unfold bind. destruct (m h) as [d1 [a|e]]; [|discriminate].
  destruct (k a (h ++ d1)%list) as [d2 r] eqn:Ek. intros H.
  injection H as <- ->. now exists d1, a, d2.
Qed.

Lemma emits_bind P (m : M A) (k : A -> M B) :
  emits P m -> (forall a, emits P (k a)) -> emits P (bind m k).
Proof.
  intros Hm Hk h. unfold bind. specialize (Hm h).
  destruct (m h) as [d1 [a|e]]; simpl in *; [|assumption].
  specialize (Hk a (h ++ d1)%list).
  destruct (k a (h ++ d1)%list) as [d2 r]. simpl in *.
  apply Forall_app. now split.
Qed.

Lemma stops_at_bind bad (m : M A) (k : A -> M B) :
  stops_at bad m -> (forall a, stops_at bad (k a)) -> stops_at bad (bind m k).
Proof.
  intros Hm Hk h ev x. unfold bind. specialize (Hm h ev x).
  destruct (m h) as [d1 [a|e]]; simpl in *.
  2:{ intros Hin Hbad. destruct (Hm Hin Hbad) as [Hr Hd].
      split; [congruence|assumption]. }
  specialize (Hk a (h ++ d1)%list ev x).
  destruct (k a (h ++ d1)%list) as [d2 r]. simpl in *.
  intros Hin Hbad. apply in_app_or in Hin. destruct Hin as [Hin|Hin].
  - destruct (Hm Hin Hbad) as [Hr _]. discriminate.
  - destruct (Hk Hin Hbad) as [Hr [d0 Hd]]. split; [assumption|].
    exists (d1 ++ d0)%list. now rewrite Hd, app_assoc.
Qed.

End Rules.

Lemma emits_ret {A} P (a : A) : emits P (ret a).
Proof. intros h. constructor. Qed.

Lemma emits_emit P ev : P ev -> emits P (emit ev).
Proof. intros H h. simpl. auto. Qed.

Lemma emits_do_call fw P c : (forall r, P (Ev c r)) -> emits P (do_call fw c).
Proof. intros H h. simpl. auto. Qed.

Lemma emits_int_truediv P a b : emits P (int_truediv a b).
Proof.
  intros h. unfold int_truediv.
  destruct (b =? 0); [constructor|].
  destruct (PyFloat.int_quotient a b); constructor.
Qed.

Lemma emits_as_train_results P v : emits P (as_train_results v).
Proof. intros h. destruct v; constructor. Qed.

Lemma emits_as_test_results P v : emits P (as_test_results v).
Proof. intros h. destruct v; constructor. Qed.

Lemma emits_as_namespace P v : emits P (as_namespace v).
Proof. intros h. destruct v; constructor. Qed.

Lemma emits_for_each {A S} P (body : A -> S -> M S) xs :
  (forall x s, In x xs -> emits P (body x s)) ->
  forall s, emits P (for_each xs body s).
Proof.
  induction xs as [|x xs IH]; intros Hb s; simpl.
  - apply emits_ret.
  - apply emits_bind.
    + apply Hb. now left.
    + intros s'. apply IH. intros y t Hy. apply Hb. now right.
Qed.

Lemma emits_weaken {A} (P Q : event -> Prop) (m : M A) :
  (forall ev, P ev -> Q ev) -> emits P m -> emits Q m.
Proof. intros HPQ Hm h. eapply Forall_impl; [exact HPQ|apply Hm]. Qed.

Lemma stops_at_silent {A} bad (m : M A) :
  (forall h, fst (m h) = []) -> stops_at bad m.
Proof. intros H h ev x Hin. rewrite H in Hin. contradiction. Qed.

Lemma stops_at_emit bad ev : (forall x, ~ bad ev x) -> stops_at bad (emit ev).
Proof.
  intros H h ev' x [<-|[]] Hbad. now apply H in Hbad.
Qed.

(** A call followed by its continuation: a bad raise ends the computation
    at once; after a bad return the continuation must raise before any
    other event. *)
Lemma stops_at_call_bind {B} fw bad c (k : value -> M B) :
  (forall r x, bad (Ev c r) x ->
     match r with
     | Raise e => e = x
     | Ret v => forall h, k v h = ([], Raise x)
     end) ->
  (forall v, stops_at bad (k v)) ->
  stops_at bad (bind (do_call fw c) k).
Proof.
  intros Hc Hk h ev x. unfold bind, do_call.
  destruct (fw h c) as [v|e] eqn:E; simpl.
  - specialize (Hk v (h ++ [Ev c (Ret v)])%list ev x).
    destruct (k v (h ++ [Ev c (Ret v)])%list) as [d2 r] eqn:Ek. simpl in *.
    intros [<-|Hin] Hbad.
    + specialize (Hc _ _ Hbad). simpl in Hc. rewrite Hc in Ek.
      injection Ek as <- <-. split; [reflexivity|]. now exists [].
    + destruct (Hk Hin Hbad) as [Hr [d0 Hd]]. split; [assumption|].
      exists (Ev c (Ret v) :: d0). now rewrite Hd.
  - intros [<-|[]] Hbad. specialize (Hc _ _ Hbad). simpl in Hc. subst.
    split; [reflexivity|]. now exists [].
Qed.

Lemma stops_at_for_each {A S} bad (body : A -> S -> M S) xs :
  (forall x s, stops_at bad (body x s)) ->
  forall s, stops_at bad (for_each xs body s).
Proof.
  intros Hb. induction xs as [|x xs IH]; intros s; simpl.
  - now apply stops_at_silent.
  - apply stops_at_bind; [apply Hb|apply IH].
Qed.

Lemma for_each_iterates {A S} (body : A -> S -> M S) xs :
  forall s h d s',
    for_each xs body s h = (d, Ret s') ->
    exists ds, iterates body xs s h ds s' /\ d = List.concat ds.
Proof.
  induction xs as [|x xs IH]; intros s h d s' H; simpl in H.
  - injection H as <- <-. exists []. split; [constructor|reflexivity].
  - apply bind_Ret_inv in H. destruct H as (d1 & s1 & d2 & H1 & H2 & ->).
    apply IH in H2. destruct H2 as (ds & Hit & ->).
    exists (d1 :: ds). split; [econstructor; eassumption|reflexivity].
Qed.

(** ** Where the script stops *)

(** The events after which the script cannot go on: a call that raised
    (with the exception it raised), and a [validate] that returned zero
    counts (the division that follows raises [ZeroDivisionError]). *)
Definition fatal (bad : event -> exn -> Prop) : Prop :=
  forall ev x, bad ev x ->
    match ev with
    | Ev c (Raise e) => e = x
    | Ev c (Ret v) =>
        x = ZeroDivisionError /\
        exists net dev vd b tr,
          c = validate net dev vd b /\ v = VTest tr /\
          correct tr = 0 /\ failed tr = 0
    | SetStdout _ => False
    end.

Lemma silent_int_truediv a b h : fst (int_truediv a b h) = [].
Proof.
  unfold int_truediv. destruct (b =? 0); [reflexivity|].
  destruct (PyFloat.int_quotient a b); reflexivity.
Qed.

Lemma silent_as_train_results v h : fst (as_train_results v h) = [].
Proof. destruct v; reflexivity. Qed.

Lemma silent_as_test_results v h : fst (as_test_results v h) = [].
Proof. destruct v; reflexivity. Qed.

Lemma silent_as_namespace v h : fst (as_namespace v h) = [].
Proof. destruct v; reflexivity. Qed.

Lemma silent_ret {A} (a : A) h : fst (ret a h) = [].
Proof. reflexivity. Qed.

Create HintDb silent.
#[local] Hint Resolve silent_int_truediv silent_as_train_results
  silent_as_test_results silent_as_namespace silent_ret : silent.

(** The side condition of [stops_at_call_bind], from [fatal]. *)
Ltac fatal_side Hfatal :=
  let r := fresh "r" in
  let x := fresh "x" in
  let Hb := fresh "Hb" in
  intros r x Hb; apply Hfatal in Hb; destruct r as [?v|?e]; [|exact Hb];
  let Hc := fresh "Hc" in
  let H0 := fresh "H0" in
  let H1 := fresh "H1" in
  destruct Hb as (-> & ?net & ?dev & ?vd & ?b & ?tr & Hc & -> & H0 & H1);
  [ first
      [ discriminate Hc
      | intros ?h; unfold bind; simpl; rewrite H0, H1; reflexivity ] ].

Ltac stops_step Hfatal :=
  lazymatch goal with
  | |- stops_at _ (bind (do_call _ _) _) =>
      apply stops_at_call_bind; [fatal_side Hfatal|intros ?]
  | |- stops_at _ (bind (emit _) _) =>
      apply stops_at_bind;
      [apply stops_at_emit; intros ?x ?Hb; apply Hfatal in Hb; exact Hb|intros ?]
  | |- stops_at _ (bind _ _) =>
      apply stops_at_bind; [|intros ?]
  | |- stops_at _ (if ?b then _ else _) => destruct b
  | |- stops_at _ (ret _) => apply stops_at_silent; auto with silent
  | |- stops_at _ _ => apply stops_at_silent; solve [auto with silent]
  end.

Section Stops.

Variable fw : history -> call -> outcome value.
Variable bad : event -> exn -> Prop.
Hypothesis bad_fatal : fatal bad.

Lemma stops_at_last_call c :
  (forall v x, ~ bad (Ev c (Ret v)) x) -> stops_at bad (do_call fw c).
Proof.
  intros Hc h ev x. unfold do_call. simpl. intros [<-|[]] Hb.
  destruct (fw h c) as [v|e].
  - now apply Hc in Hb.
  - apply bad_fatal in Hb. subst. split; [reflexivity|]. now exists [].
Qed.

Lemma stops_at_log_losses tb prefix losses epoch :
  stops_at bad (log_losses fw tb prefix losses epoch).
Proof.
  unfold log_losses. apply stops_at_for_each. intros nl [].
  repeat stops_step bad_fatal.
Qed.

Lemma stops_at_epoch_body args sf tb net dev td vd opt epoch best :
  stops_at bad (epoch_body fw args sf tb net dev td vd opt epoch best).
Proof.
  unfold epoch_body.
  repeat first [apply stops_at_log_losses | stops_step bad_fatal].
Qed.

Lemma stops_at_run args sf lf : stops_at bad (run fw args sf lf).
Proof.
  unfold run, epoch_loop. cbv zeta.
  repeat first
    [ apply stops_at_for_each; intros ? ?; apply stops_at_epoch_body
    | stops_step bad_fatal ].
Qed.

Lemma stops_at_main home : stops_at bad (main fw home).
Proof.
  unfold main, parse_args. cbv zeta.
  repeat first
    [ apply stops_at_for_each; intros ? ?; unfold main_body; cbv zeta
    | apply stops_at_run
    | apply stops_at_last_call; intros ?v ?x ?Hb; apply bad_fatal in Hb;
      destruct Hb as (_ & ? & ? & ? & ? & ? & Hc & _); discriminate Hc
    | stops_step bad_fatal ].
Qed.

End Stops.

(** ** Runs that complete *)

(** The values a completed set-up of [run] got back from its calls: the
    objects it keeps, and what the calls whose result it drops returned
    (numbered in call order). *)
Record setup_values := {
  sv_tb : value;
  sv_Dataset : value;
  sv_train_dataset : value;
  sv_train_data : value;
  sv_val_dataset : value;
  sv_val_data : value;
  sv_ggcnn : value;
  sv_net0 : value;
  sv_device : value;
  sv_net : value;
  sv_params : value;
  sv_optimizer : value;
  sv_f : value;
  sv_dropped : nat -> value
}.

(** The events of lines 55 to 98, in order. *)
Definition setup_events (args : Args) (save_folder log_folder : string)
    (sv : setup_values) : list event :=
  let input_channels := 1 * use_depth args + 3 * use_rgb args in
  [ Ev (SummaryWriter log_folder) (Ret (sv_tb sv));
    Ev (logging_info ("Loading " ++ PyStr.title (dataset args) ++ " Dataset..."))
       (Ret (sv_dropped sv 0));
    Ev (get_dataset (dataset args)) (Ret (sv_Dataset sv));
    Ev (Dataset (sv_Dataset sv) (dataset_path args) PyFloat.zero (split args)
          (ds_rotate args) true true (use_depth args) (use_rgb args))
       (Ret (sv_train_dataset sv));
    Ev (DataLoader (sv_train_dataset sv) (batch_size args) true (num_workers args))
       (Ret (sv_train_data sv));
    Ev (Dataset (sv_Dataset sv) (dataset_path args) (split args) PyFloat.one
          (ds_rotate args) true true (use_depth args) (use_rgb args))
       (Ret (sv_val_dataset sv));
    Ev (DataLoader (sv_val_dataset sv) 1 false (num_workers args))
       (Ret (sv_val_data sv));
    Ev (logging_info "Done") (Ret (sv_dropped sv 1));
    Ev (logging_info "Loading Network...") (Ret (sv_dropped sv 2));
    Ev (get_network (network args)) (Ret (sv_ggcnn sv));
    Ev (Network (sv_ggcnn sv) input_channels) (Ret (sv_net0 sv));
    Ev (torch_device "cuda:0") (Ret (sv_device sv));
    Ev (net_to (sv_net0 sv) (sv_device sv)) (Ret (sv_net sv));
    Ev (net_parameters (sv_net sv)) (Ret (sv_params sv));
    Ev (optim_Adam (sv_params sv)) (Ret (sv_optimizer sv));
    Ev (logging_info "Done") (Ret (sv_dropped sv 3));
    Ev (summary (sv_net sv) (input_channels, 300, 300)) (Ret (sv_dropped sv 4));
    Ev (open_ (PyStr.os_path_join save_folder "arch.txt") "w") (Ret (sv_f sv));
    SetStdout (Some (sv_f sv));
    Ev (summary (sv_net sv) (input_channels, 300, 300)) (Ret (sv_dropped sv 5));
    SetStdout None;
    Ev (file_close (sv_f sv)) (Ret (sv_dropped sv 6)) ].

(** The events of a completed [log_losses]: one [add_scalar] per item, in
    the order of the dict. *)
Definition losses_logged (tb : value) (prefix : string) (epoch : Z)
    (losses : list (string * float)) (d : list event) : Prop :=
  Forall2
    (fun nl ev => exists v,
       ev = Ev (tb_add_scalar tb (prefix ++ fst nl) (snd nl) epoch) (Ret v))
    losses d.

(** The IOU of an epoch, from the counts that [validate] returned. *)
Definition iou_of (r : test_results) : float :=
  PyFloat.int_quotient (correct r) (correct r + failed r).

(** The events of the checkpoint of lines 127 to 129. *)
Definition checkpoint_events (save_folder : string) (net : value) (epoch : Z)
    (iou : float) (sd v1 v2 : value) : list event :=
  [ Ev (torch_save net (PyStr.os_path_join save_folder (checkpoint_name epoch iou)))
       (Ret v1);
    Ev (net_state_dict net) (Ret sd);
    Ev (torch_save sd (PyStr.os_path_join save_folder (statedict_name epoch iou)))
       (Ret v2) ].

(** The events of a completed iteration of the epoch loop, in order. *)
Definition epoch_events (args : Args) (save_folder : string)
    (tb net device train_data val_data optimizer : value) (epoch : Z)
    (best_iou : float) (tr : train_results) (te : test_results)
    (dropped : nat -> value) (sd : value) (d_train d_val : list event)
    : list event :=
  ([ Ev (logging_info ("Beginning Epoch " ++ PyStr.format_0d 2 epoch))
        (Ret (dropped 0%nat));
     Ev (train epoch net device train_data optimizer (batches_per_epoch args)
           (vis args)) (Ret (VTrain tr));
     Ev (tb_add_scalar tb "loss/train_loss" (train_loss tr) epoch)
        (Ret (dropped 1%nat)) ]
   ++ d_train
   ++ [ Ev (logging_info "Validating...") (Ret (dropped 2%nat));
        Ev (validate net device val_data (val_batches args)) (Ret (VTest te));
        Ev (logging_info
              (PyStr.format_d (correct te) ++ "/"
               ++ PyStr.format_d (correct te + failed te)
               ++ " = " ++ PyStr.format_f 6 (iou_of te)))
           (Ret (dropped 3%nat));
        Ev (tb_add_scalar tb "loss/IOU" (iou_of te) epoch) (Ret (dropped 4%nat));
        Ev (tb_add_scalar tb "loss/val_loss" (val_loss te) epoch)
           (Ret (dropped 5%nat)) ]
   ++ d_val
   ++ (if save_condition (iou_of te) best_iou epoch
       then checkpoint_events save_folder net epoch (iou_of te) sd
              (dropped 6%nat) (dropped 7%nat)
       else []))%list.

Lemma do_call_Ret_inv fw c h d a :
  do_call fw c h = (d, Ret a) -> d = [Ev c (Ret a)] /\ fw h c = Ret a.
Proof.
  unfold do_call. intros H. injection H as <- H. now rewrite H.
Qed.

Lemma emit_Ret_inv ev h d u : emit ev h = (d, Ret u) -> d = [ev].
Proof. unfold emit. intros H. now injection H as <- _. Qed.

Lemma ret_Ret_inv {A} (a b : A) h d : ret a h = (d, Ret b) -> d = [] /\ b = a.
Proof. unfold ret. intros H. now injection H as <- <-. Qed.

Lemma as_train_results_Ret_inv v h d r :
  as_train_results v h = (d, Ret r) -> d = [] /\ v = VTrain r.
Proof. destruct v; simpl; try discriminate. unfold ret. intros H. now injection H as <- <-. Qed.

Lemma as_test_results_Ret_inv v h d r :
  as_test_results v h = (d, Ret r) -> d = [] /\ v = VTest r.
Proof. destruct v; simpl; try discriminate. unfold ret. intros H. now injection H as <- <-. Qed.

Lemma as_namespace_Ret_inv v h d a :
  as_namespace v h = (d, Ret a) -> d = [] /\ v = VNamespace a.
Proof. destruct v; simpl; try discriminate. unfold ret. intros H. now injection H as <- <-. Qed.

Lemma int_truediv_Ret_inv a b h d q :
  int_truediv a b h = (d, Ret q) ->
  d = [] /\ q = PyFloat.int_quotient a b /\ b <> 0.
Proof.
  unfold int_truediv. destruct (Z.eqb_spec b 0) as [_|Hb]; [discriminate|].
  destruct (PyFloat.int_quotient a b); try discriminate;
    unfold ret; intros H; injection H as <- <-; auto.
Qed.

Lemma log_losses_Ret_inv fw tb prefix epoch losses :
  forall h d u,
    log_losses fw tb prefix losses epoch h = (d, Ret u) ->
    losses_logged tb prefix epoch losses d.
Proof.
  unfold log_losses, losses_logged.
  induction losses as [|nl losses IH]; intros h d u H; simpl in H.
  - apply ret_Ret_inv in H. destruct H as [-> _]. constructor.
  - apply bind_Ret_inv in H. destruct H as (d1 & [] & d2 & H1 & H2 & ->).
    apply bind_Ret_inv in H1. destruct H1 as (d3 & v & d4 & H3 & H4 & ->).
    apply do_call_Ret_inv in H3. destruct H3 as [-> _].
    apply ret_Ret_inv in H4. destruct H4 as [-> _].
    simpl. constructor; [now exists v|]. eapply IH. exact H2.
Qed.

(** One step of the inversion of a completed computation: [a] names the
    value the step yields and [d1] the events it adds. *)
Ltac invert_completed H a d1 :=
  let d2 := fresh "d" in
  let H1 := fresh "Hstep" in
  apply bind_Ret_inv in H; destruct H as (d1 & a & d2 & H1 & H & ->);
  first
    [ apply do_call_Ret_inv in H1; destruct H1 as [-> H1]
    | apply emit_Ret_inv in H1; subst d1
    | apply as_train_results_Ret_inv in H1; destruct H1 as [-> ->]
    | apply as_test_results_Ret_inv in H1; destruct H1 as [-> ->]
    | apply as_namespace_Ret_inv in H1; destruct H1 as [-> ->]
    | apply int_truediv_Ret_inv in H1; destruct H1 as (-> & -> & H1)
    | apply log_losses_Ret_inv in H1
    | idtac ].

Tactic Notation "completed" hyp(H) "as" ident(a) :=
  let d1 := fresh "d" in invert_completed H a d1.
Tactic Notation "completed" hyp(H) "as" ident(a) "events" ident(d1) :=
  invert_completed H a d1.

(** A completed iteration of the epoch loop made exactly the events of
    [epoch_events], and left [best_iou] as the test of line 126 says. *)
Lemma epoch_body_completed fw args sf tb net dev td vd opt epoch best h d best' :
  epoch_body fw args sf tb net dev td vd opt epoch best h = (d, Ret best') ->
  exists tr te dropped sd d_train d_val,
    d = epoch_events args sf tb net dev td vd opt epoch best tr te dropped sd
          d_train d_val /\
    losses_logged tb "train_loss/" epoch (train_losses tr) d_train /\
    losses_logged tb "val_loss/" epoch (val_losses te) d_val /\
    correct te + failed te <> 0 /\
    best' = (if save_condition (iou_of te) best epoch then iou_of te else best).
Proof.
  unfold epoch_body. intros H.
  completed H as v0. completed H as vtr. completed H as tr.
  completed H as v1. completed H as u1 events d_train.
  completed H as v2. completed H as vte. completed H as te.
  completed H as q1. completed H as v3. completed H as q2.
  completed H as v4. completed H as v5. completed H as u2 events d_val.
  completed H as iou.
  fold (iou_of te) in *.
  destruct (save_condition (iou_of te) best epoch) eqn:Hc.
  - completed H as v6. completed H as sd. completed H as v7.
    apply ret_Ret_inv in H. destruct H as [-> ->].
    exists tr, te, (fun n => nth n [v0; v1; v2; v3; v4; v5; v6; v7] VNone),
      sd, d_train, d_val.
    unfold epoch_events, checkpoint_events. rewrite Hc. simpl.
    repeat split; try assumption.
    all: repeat (rewrite <- ?app_assoc; simpl); reflexivity.
  - apply ret_Ret_inv in H. destruct H as [-> ->].
    exists tr, te, (fun n => nth n [v0; v1; v2; v3; v4; v5] VNone),
      VNone, d_train, d_val.
    unfold epoch_events. rewrite Hc. simpl.
    repeat split; try assumption.
    all: repeat (rewrite <- ?app_assoc; simpl); reflexivity.
Qed.

(** A completed [run] made the events of [setup_events] and then those of
    the iterations of the epoch loop, one per epoch of [range(args.epochs)],
    each starting from the [best_iou] the one before left. *)
Lemma run_completed fw args sf lf h d :
  run fw args sf lf h = (d, Ret tt) ->
  exists sv ds best,
    d = (setup_events args sf lf sv ++ List.concat ds)%list /\
    iterates
      (epoch_body fw args sf (sv_tb sv) (sv_net sv) (sv_device sv)
         (sv_train_data sv) (sv_val_data sv) (sv_optimizer sv))
      (range (epochs args)) PyFloat.zero
      (h ++ setup_events args sf lf sv)%list ds best.
Proof.
  unfold run. cbv zeta. intros H.
  completed H as tb. completed H as v0. completed H as cls.
  completed H as tds. completed H as tdata. completed H as vds.
  completed H as vdata. completed H as v1. completed H as v2.
  completed H as gg. completed H as net0. completed H as dev.
  completed H as net. completed H as params. completed H as opt.
  completed H as v3. completed H as v4. completed H as f.
  completed H as u0. completed H as v5. completed H as u1.
  completed H as v6.
  apply bind_Ret_inv in H. destruct H as (d_loop & best & d_end & Hloop & H & ->).
  apply ret_Ret_inv in H. destruct H as [-> _].
  unfold epoch_loop in Hloop.
  apply for_each_iterates in Hloop. destruct Hloop as (ds & Hit & ->).
  exists {| sv_tb := tb; sv_Dataset := cls; sv_train_dataset := tds;
            sv_train_data := tdata; sv_val_dataset := vds; sv_val_data := vdata;
            sv_ggcnn := gg; sv_net0 := net0; sv_device := dev; sv_net := net;
            sv_params := params; sv_optimizer := opt; sv_f := f;
            sv_dropped := fun n => nth n [v0; v1; v2; v3; v4; v5; v6] VNone |},
    ds, best.
  unfold setup_events. simpl. split.
  - rewrite app_nil_r. reflexivity.
  - repeat (rewrite <- ?app_assoc in Hit; simpl in Hit). exact Hit.
Qed.

(** ** Runs against collaborators that do not fail *)

(** [m] returns, with a value that satisfies [Q]. *)
Definition yields {A} (Q : A -> Prop) (m : M A) : Prop :=
  forall h, exists a, snd (m h) = Ret a /\ Q a.

(** Collaborators that return from every call, with a dict of the
    expected keys from [train] and [validate], counts whose quotient is
    defined from [validate], and a namespace from the parser. *)
Definition cooperative (fw : history -> call -> outcome value) : Prop :=
  forall h c,
    match c with
    | train _ _ _ _ _ _ _ => exists r, fw h c = Ret (VTrain r)
    | validate _ _ _ _ =>
        exists r, fw h c = Ret (VTest r) /\ correct r + failed r <> 0 /\
                  match iou_of r with
                  | S754_finite _ _ _ | S754_zero _ => True
                  | _ => False
                  end
    | ArgumentParser_parse_args _ _ => exists a, fw h c = Ret (VNamespace a)
    | _ => exists v, fw h c = Ret v
    end.

Lemma yields_bind {A B} (Q : A -> Prop) (R : B -> Prop) (m : M A) (k : A -> M B) :
  yields Q m -> (forall a, Q a -> yields R (k a)) -> yields R (bind m k).
Proof.
  intros Hm Hk h. unfold bind. destruct (Hm h) as (a & Ha & HQ).
  destruct (m h) as [d1 r]. simpl in Ha. subst r.
  destruct (Hk a HQ (h ++ d1)%list) as (b & Hb & HR).
  destruct (k a (h ++ d1)%list) as [d2 r]. simpl in *. now exists b.
Qed.

Lemma yields_ret {A} (Q : A -> Prop) a : Q a -> yields Q (ret a).
Proof. intros H h. now exists a. Qed.

Lemma yields_emit ev : yields (fun _ => True) (emit ev).
Proof. intros h. now exists tt. Qed.

Lemma yields_weaken {A} (Q R : A -> Prop) (m : M A) :
  (forall a, Q a -> R a) -> yields Q m -> yields R m.
Proof. intros HQR Hm h. destruct (Hm h) as (a & Ha & HQ). exists a. auto. Qed.

Lemma yields_for_each {A S} (body : A -> S -> M S) xs :
  (forall x s, yields (fun _ => True) (body x s)) ->
  forall s, yields (fun _ => True) (for_each xs body s).
Proof.
  intros Hb. induction xs as [|x xs IH]; intros s; simpl.
  - now apply yields_ret.
  - eapply yields_bind; [apply Hb|]. intros s' _. apply IH.
Qed.

Section Cooperative.

Variable fw : history -> call -> outcome value.
Hypothesis fw_cooperative : cooperative fw.

Lemma yields_do_call c :
  yields
    (fun v =>
       match c with
       | train _ _ _ _ _ _ _ => exists r, v = VTrain r
       | validate _ _ _ _ =>
           exists r, v = VTest r /\ correct r + failed r <> 0 /\
                     match iou_of r with
                     | S754_finite _ _ _ | S754_zero _ => True
                     | _ => False
                     end
       | ArgumentParser_parse_args _ _ => exists a, v = VNamespace a
       | _ => True
       end)
    (do_call fw c).
Proof.
  intros h. unfold do_call. simpl. specialize (fw_cooperative h c).
  destruct c; destruct fw_cooperative as (w & Hw); try (exists w; now split).
  - rewrite Hw. eexists. split; [reflexivity|]. now exists w.
  - rewrite Hw. eexists. split; [reflexivity|]. now exists w.
  - destruct Hw as (Hw & Hne & Hq). rewrite Hw.
    eexists. split; [reflexivity|]. now exists w.
Qed.

Lemma yields_any_call c : yields (fun _ => True) (do_call fw c).
Proof. eapply yields_weaken; [|apply yields_do_call]. auto. Qed.

Lemma yields_int_truediv (r : test_results) :
  correct r + failed r <> 0 ->
  match iou_of r with
  | S754_finite _ _ _ | S754_zero _ => True
  | _ => False
  end ->
  yields (fun q => q = iou_of r) (int_truediv (correct r) (correct r + failed r)).
Proof.
  intros Hne Hq h. unfold int_truediv.
  destruct (Z.eqb_spec (correct r + failed r) 0) as [|_]; [contradiction|].
  unfold iou_of in *.
  destruct (PyFloat.int_quotient (correct r) (correct r + failed r));
    try contradiction; eexists; split; reflexivity.
Qed.

Lemma yields_log_losses tb prefix losses epoch :
  yields (fun _ => True) (log_losses fw tb prefix losses epoch).
Proof.
  unfold log_losses. apply yields_for_each. intros nl [].
  eapply yields_bind; [apply yields_any_call|]. intros _ _. now apply yields_ret.
Qed.

Ltac yields_step :=
  lazymatch goal with
  | |- yields _ (bind (do_call _ _) _) =>
      eapply yields_bind;
      [apply yields_do_call|let H := fresh "Hv" in intros ? H; cbv beta iota in H]
  | |- yields _ (bind (emit _) _) =>
      eapply yields_bind; [apply yields_emit|intros ? _]
  | |- yields _ (bind (log_losses _ _ _ _ _) _) =>
      eapply yields_bind; [apply yields_log_losses|intros ? _]
  | |- yields _ (ret _) => now apply yields_ret
  end.

Lemma yields_epoch_body args sf tb net dev td vd opt epoch best :
  yields (fun _ => True)
    (epoch_body fw args sf tb net dev td vd opt epoch best).
Proof.
  unfold epoch_body.
  yields_step. yields_step.
  match goal with H : exists r, _ = VTrain r |- _ => destruct H as (tr & ->) end.
  eapply yields_bind; [apply (yields_ret (fun r => r = tr)); reflexivity|].
  intros ? ->.
  do 4 yields_step.
  match goal with
  | H : exists r, _ = VTest r /\ _ |- _ => destruct H as (te & -> & Hne & Hq)
  end.
  eapply yields_bind; [apply (yields_ret (fun r => r = te)); reflexivity|].
  intros ? ->.
  eapply yields_bind; [now apply yields_int_truediv|]. intros ? ->.
  yields_step.
  eapply yields_bind; [now apply yields_int_truediv|]. intros ? ->.
  do 3 yields_step.
  eapply yields_bind; [now apply yields_int_truediv|]. intros ? ->.
  destruct (save_condition (iou_of te) best epoch); repeat yields_step.
Qed.

(** Against such collaborators [run] returns, for every configuration:
    nothing in [run] itself rejects one. *)
Lemma run_returns args sf lf h : snd (run fw args sf lf h) = Ret tt.
Proof.
  assert (H : yields (fun _ => True) (run fw args sf lf)).
  { unfold run, epoch_loop. cbv zeta. repeat yields_step.
    eapply yields_bind; [|intros ? _; now apply yields_ret].
    apply yields_for_each. intros epoch best. apply yields_epoch_body. }
  destruct (H h) as ([] & Hr & _). exact Hr.
Qed.

Lemma main_returns home h : snd (main fw home h) = Ret tt.
Proof.
  assert (H : yields (fun _ => True) (main fw home)).
  { unfold main, parse_args. cbv zeta.
    eapply yields_bind with (Q := fun _ => True).
    - yields_step.
      match goal with H : exists a, _ = VNamespace a |- _ => destruct H as (ns & ->) end.
      now apply yields_ret.
    - intros parsed _.
      eapply yields_bind; [|intros ? _; now apply yields_ret].
      apply yields_for_each. intros t args. unfold main_body. cbv zeta.
      yields_step.
      eapply yields_bind with (Q := fun _ => True).
      { destruct (truthy _); [apply yields_any_call|now apply yields_ret]. }
      intros ? _. do 2 yields_step.
      eapply yields_bind with (Q := fun _ => True); [|intros ? _; now apply yields_ret].
      intros h'. exists tt. split; [apply run_returns|exact I]. }
  destruct (H h) as ([] & Hr & _). exact Hr.
Qed.

End Cooperative.

(** ** What the calls are passed *)

(** What [run] may pass to each collaborator, given its three parameters.
    The calls that only [main] makes are excluded. *)
Definition configured (args : Args) (save_folder log_folder : string)
    (ev : event) : Prop :=
  match ev with
  | Ev (SummaryWriter p) _ => p = log_folder
  | Ev (get_dataset n) _ => n = dataset args
  | Ev (Dataset _ p s e rot rr rz d rgb) _ =>
      p = dataset_path args /\ rot = ds_rotate args /\ rr = true /\ rz = true /\
      d = use_depth args /\ rgb = use_rgb args /\
      ((s = PyFloat.zero /\ e = split args) \/ (s = split args /\ e = PyFloat.one))
  | Ev (DataLoader _ b sh w) _ =>
      w = num_workers args /\
      ((b = batch_size args /\ sh = true) \/ (b = 1 /\ sh = false))
  | Ev (get_network n) _ => n = network args
  | Ev (Network _ ic) _ => ic = 1 * use_depth args + 3 * use_rgb args
  | Ev (torch_device n) _ => n = "cuda:0"
  | Ev (summary _ size) _ =>
      size = (1 * use_depth args + 3 * use_rgb args, 300, 300)
  | Ev (open_ p m) _ => p = PyStr.os_path_join save_folder "arch.txt" /\ m = "w"
  | Ev (train e _ _ _ _ b v) _ =>
      0 <= e < epochs args /\ b = batches_per_epoch args /\ v = vis args
  | Ev (validate _ _ _ b) _ => b = val_batches args
  | Ev (tb_add_scalar _ _ _ e) _ => 0 <= e < epochs args
  | Ev (torch_save _ p) _ =>
      exists e iou,
        0 <= e < epochs args /\
        (p = PyStr.os_path_join save_folder (checkpoint_name e iou) \/
         p = PyStr.os_path_join save_folder (statedict_name e iou))
  | Ev (ArgumentParser_parse_args _ _) _ => False
  | Ev (Path_exists _) _ => False
  | Ev (shutil_rmtree _) _ => False
  | Ev (Path_mkdir _ _) _ => False
  | Ev (print _) _ => False
  | _ => True
  end.

Lemma in_range n x : In x (range n) -> 0 <= x < n.
Proof.
  unfold range. rewrite in_map_iff. intros (k & <- & Hk).
  apply in_seq in Hk. lia.
Qed.


Ltac emits_step :=
  lazymatch goal with
  | |- emits _ (bind _ _) => apply emits_bind; [|intros ?]
  | |- emits _ (do_call _ _) => apply emits_do_call; intros ?; simpl
  | |- emits _ (emit _) => apply emits_emit; simpl
  | |- emits _ (ret _) => apply emits_ret
  | |- emits _ (int_truediv _ _) => apply emits_int_truediv
  | |- emits _ (as_train_results _) => apply emits_as_train_results
  | |- emits _ (as_test_results _) => apply emits_as_test_results
  | |- emits _ (as_namespace _) => apply emits_as_namespace
  | |- emits _ (if ?b then _ else _) => destruct b
  end.

Lemma epoch_body_configured fw args sf lf tb net dev td vd opt epoch best :
  0 <= epoch < epochs args ->
  emits (configured args sf lf)
    (epoch_body fw args sf tb net dev td vd opt epoch best).
Proof.
  intros He. unfold epoch_body, log_losses.
  repeat first
    [ apply emits_for_each; intros ? ? _
    | emits_step ];
    auto.
  - exists epoch. eauto.
  - exists epoch. eauto.
Qed.

Lemma run_configured fw args sf lf :
  emits (configured args sf lf) (run fw args sf lf).
Proof.
  unfold run, epoch_loop. cbv zeta.
  repeat first
    [ apply emits_for_each; intros ? ? ?Hin; apply in_range in Hin;
      now apply epoch_body_configured
    | emits_step ];
    auto 10.
Qed.

(** ** What a trace shows *)


(** The counts that [validate] returned. *)
Definition validate_result (ev : event) : list test_results :=
  match ev with
  | Ev (validate _ _ _ _) (Ret (VTest r)) => [r]
  | _ => []
  end.

(** The objects passed to [torch.save] and the paths they are saved under. *)
Definition saved (ev : event) : list (value * string) :=
  match ev with
  | Ev (torch_save obj p) _ => [(obj, p)]
  | _ => []
  end.

(** The values written to tensorboard under [tag]. *)
Definition scalar_of (tag : string) (ev : event) : list float :=
  match ev with
  | Ev (tb_add_scalar _ t v _) _ => if String.eqb t tag then [v] else []
  | _ => []
  end.

(** The messages passed to [logging.info]. *)
Definition log_message (ev : event) : list string :=
  match ev with
  | Ev (logging_info msg) _ => [msg]
  | _ => []
  end.

(** The windows [(start, end, ds_rotate)] of the datasets constructed. *)
Definition dataset_window (ev : event) : list (float * float * float) :=
  match ev with
  | Ev (Dataset _ _ s e rot _ _ _ _) _ => [(s, e, rot)]
  | _ => []
  end.


Lemma losses_logged_flat_map {X} (f : event -> list X) tb prefix epoch losses d :
  losses_logged tb prefix epoch losses d ->
  (forall tag v r, f (Ev (tb_add_scalar tb (prefix ++ tag) v epoch) r) = []) ->
  flat_map f d = [].
Proof.
  intros H Hf. induction H as [|nl ev losses d (v & ->) _ IH]; simpl.
  - reflexivity.
  - now rewrite Hf, IH.
Qed.

(** What each observation finds in a completed iteration. *)
Section EpochObservations.

Variables (args : Args) (sf : string) (tb net dev td vd opt : value).
Variables (epoch : Z) (best : float) (tr : train_results) (te : test_results).
Variables (dropped : nat -> value) (sd : value) (d_train d_val : list event).
Hypothesis Htrain : losses_logged tb "train_loss/" epoch (train_losses tr) d_train.
Hypothesis Hval : losses_logged tb "val_loss/" epoch (val_losses te) d_val.

Let d := epoch_events args sf tb net dev td vd opt epoch best tr te dropped sd
           d_train d_val.

Ltac observe_epoch :=
  unfold d, epoch_events, checkpoint_events;
  rewrite !flat_map_app;
  rewrite (losses_logged_flat_map _ _ _ _ _ _ Htrain) by reflexivity;
  rewrite (losses_logged_flat_map _ _ _ _ _ _ Hval) by reflexivity;
  destruct (save_condition (iou_of te) best epoch); reflexivity.


Lemma epoch_validate_results : flat_map validate_result d = [te].
Proof. observe_epoch. Qed.

Lemma epoch_iou_scalars : flat_map (scalar_of "loss/IOU") d = [iou_of te].
Proof. observe_epoch. Qed.

Lemma epoch_saved :
  flat_map saved d =
  if save_condition (iou_of te) best epoch
  then [ (net, PyStr.os_path_join sf (checkpoint_name epoch (iou_of te)));
         (sd, PyStr.os_path_join sf (statedict_name epoch (iou_of te))) ]
  else [].
Proof. observe_epoch. Qed.

Lemma epoch_dataset_windows : flat_map dataset_window d = [].
Proof. observe_epoch. Qed.


Lemma epoch_log_messages :
  flat_map log_message d =
  [ "Beginning Epoch " ++ PyStr.format_0d 2 epoch;
    "Validating...";
    PyStr.format_d (correct te) ++ "/" ++ PyStr.format_d (correct te + failed te)
      ++ " = " ++ PyStr.format_f 6 (iou_of te) ].
Proof. observe_epoch. Qed.

End EpochObservations.

(** What the epoch loop of a completed [run] shows, iteration by
    iteration. *)
Lemma iterates_flat_map {X} (f : event -> list X) (g : Z -> list X)
    fw args sf tb net dev td vd opt :
  (forall epoch best h d best',
      epoch_body fw args sf tb net dev td vd opt epoch best h = (d, Ret best') ->
      flat_map f d = g epoch) ->
  forall epochs_ best h ds best',
    iterates (epoch_body fw args sf tb net dev td vd opt) epochs_ best h ds best' ->
    flat_map f (List.concat ds) = flat_map g epochs_.
Proof.
  intros Hbody epochs_ best h ds best' Hit.
  induction Hit as [|epoch epochs_ best h d best1 ds best' Hd _ IH]; simpl.
  - reflexivity.
  - rewrite flat_map_app, IH. f_equal. eapply Hbody. exact Hd.
Qed.



(** ** [main] *)

(** The namespace that [main] passes to [run] for the tag [t], from the one
    the parser returned. *)
Definition main_args (parsed : Args) (home t : string) : Args :=
  {| network := "ggcnn";
     dataset := if String.eqb t "cor" then "cornell" else "jacquard";
     dataset_path := PyStr.joinpath (INPUT_DATA_PATH home) t;
     use_depth := use_depth parsed;
     use_rgb := use_rgb parsed;
     split := split parsed;
     ds_rotate := ds_rotate parsed;
     num_workers := num_workers parsed;
     batch_size := batch_size parsed;
     epochs := 100;
     batches_per_epoch := batches_per_epoch parsed;
     val_batches := val_batches parsed;
     description := "train " ++ t;
     vis := vis parsed |}.



(** What the loop of [main] keeps true of [args]. *)
Definition main_invariant (parsed a : Args) : Prop :=
  network a = "ggcnn" /\ epochs a = 100 /\
  use_depth a = use_depth parsed /\ use_rgb a = use_rgb parsed /\
  split a = split parsed /\ ds_rotate a = ds_rotate parsed /\
  num_workers a = num_workers parsed /\ batch_size a = batch_size parsed /\
  batches_per_epoch a = batches_per_epoch parsed /\
  val_batches a = val_batches parsed /\ vis a = vis parsed.

(** The namespace of the iteration for [t], as [main_body] builds it. *)
Definition assigned (home t : string) (a : Args) : Args :=
  set_dataset_path
    (set_description
       (set_dataset a (if String.eqb t "cor" then "cornell" else "jacquard"))
       ("train " ++ t))
    (PyStr.joinpath (INPUT_DATA_PATH home) t).

Lemma assigned_main_args parsed home t a :
  main_invariant parsed a -> assigned home t a = main_args parsed home t.
Proof.
  unfold main_invariant, assigned, main_args. destruct a. simpl.
  intros (-> & -> & -> & -> & -> & -> & -> & -> & -> & -> & ->). reflexivity.
Qed.

Lemma assigned_invariant parsed home t a :
  main_invariant parsed a -> main_invariant parsed (assigned home t a).
Proof. unfold main_invariant, assigned. destruct a. simpl. tauto. Qed.



Lemma main_body_invariant fw parsed home t a h d a' :
  main_invariant parsed a ->
  main_body fw home t a h = (d, Ret a') ->
  main_invariant parsed a'.
Proof.
  intros Ha. unfold main_body. cbv zeta. fold (assigned home t a). intros H.
  completed H as ex.
  apply bind_Ret_inv in H. destruct H as (d_rm & v1 & d_rest & _ & H & ->).
  completed H as v2. completed H as v3.
  apply bind_Ret_inv in H. destruct H as (d_run & u & d_end & _ & H & ->).
  apply ret_Ret_inv in H. destruct H as [_ ->].
  now apply assigned_invariant.
Qed.




Lemma parsed_invariant parsed :
  main_invariant parsed (set_epochs (set_network parsed "ggcnn") 100).
Proof. unfold main_invariant. simpl. tauto. Qed.



(** ** The order of the steps *)

(** The kind of step an event is. *)
Inductive step :=
| SummaryWriterCreation
| Logging
| DatasetLookup
| DatasetConstruction
| LoaderWrapping
| NetworkLookup
| NetworkInstantiation
| DeviceSelection
| OptimizerConstruction
| ArchitectureSummary
| Training
| Validation
| Checkpoint
| MainStep.








(** ** Sample environments *)

(** What the parser returns for
    [--network ggcnn2 --dataset cornell --dataset-path /data --epochs 12]. *)
Definition sample_cli : Args :=
  {| network := "ggcnn2"; dataset := "cornell"; dataset_path := "/data";
     use_depth := 1; use_rgb := 0; split := PyFloat.int_quotient 9 10;
     ds_rotate := PyFloat.zero; num_workers := 8; batch_size := 8; epochs := 12;
     batches_per_epoch := 1000; val_batches := 250; description := "";
     vis := false |}.

(** The same with [--use-depth 0 --use-rgb 0]. *)
Definition no_channels_cli : Args :=
  {| network := "ggcnn2"; dataset := "cornell"; dataset_path := "/data";
     use_depth := 0; use_rgb := 0; split := PyFloat.int_quotient 9 10;
     ds_rotate := PyFloat.zero; num_workers := 8; batch_size := 8; epochs := 2;
     batches_per_epoch := 1000; val_batches := 250; description := "";
     vis := false |}.

Definition validations_so_far (h : history) : nat :=
  Datatypes.length (flat_map validate_result h).

Definition sample_train_results : train_results :=
  {| train_loss := PyFloat.int_quotient 1 4;
     train_losses := [("p_loss", PyFloat.int_quotient 1 8);
                      ("width_loss", PyFloat.int_quotient 1 8)] |}.

(** Collaborators that never fail: every object is fresh, the parser
    returns [sample_cli], no output folder exists, and validation finds 9
    of 10 grasps in the first epoch it is asked and 1 of 2 afterwards. *)
Definition sample_fw (h : history) (c : call) : outcome value :=
  match c with
  | ArgumentParser_parse_args _ _ => Ret (VNamespace sample_cli)
  | train _ _ _ _ _ _ _ => Ret (VTrain sample_train_results)
  | validate _ _ _ _ =>
      Ret (VTest {| correct := if (validations_so_far h =? 0)%nat then 9 else 1;
                    failed := 1;
                    val_loss := PyFloat.int_quotient 1 2;
                    val_losses := [("p_loss", PyFloat.int_quotient 1 4)] |})
  | Path_exists _ => Ret (VBool false)
  | logging_info _ | tb_add_scalar _ _ _ _ | summary _ _ | file_close _
  | torch_save _ _ | shutil_rmtree _ | Path_mkdir _ _ | print _ => Ret VNone
  | _ => Ret (VObj (Datatypes.length h))
  end.

(** As [sample_fw], but the validation set is empty: [validate] counts
    nothing. *)
Definition empty_validation_fw (h : history) (c : call) : outcome value :=
  match c with
  | validate _ _ _ _ =>
      Ret (VTest {| correct := 0; failed := 0; val_loss := PyFloat.zero;
                    val_losses := [] |})
  | _ => sample_fw h c
  end.

(** As [sample_fw], but [train] raises in epoch 1. *)
Definition failing_fw (h : history) (c : call) : outcome value :=
  match c with
  | train 1 _ _ _ _ _ _ => Raise (Raised "RuntimeError")
  | _ => sample_fw h c
  end.

(** A history in which [validate] has been called once. *)
Definition after_one_validation : history :=
  [ Ev (validate (VObj 12) (VObj 11) (VObj 6) 250)
       (Ret (VTest {| correct := 9; failed := 1; val_loss := PyFloat.zero;
                      val_losses := [] |})) ].

Lemma sample_fw_cooperative : cooperative sample_fw.
Proof.
  intros h c. destruct c; simpl; eauto.
  eexists. split; [reflexivity|].
  destruct (validations_so_far h =? 0)%nat; simpl; split;
    first [discriminate|exact I].
Qed.

(** Membership in an explicit list. *)
Ltac find_in := simpl; repeat first [left; reflexivity|right].

(** ** The properties *)

(** The events that end a computation by raising. *)
Definition raised_by (ev : event) (x : exn) : Prop :=
  exists c, ev = Ev c (Raise x).

Lemma raised_by_fatal : fatal raised_by.
Proof.
  intros ev x (c & ->). reflexivity.
Qed.

(** A [validate] that returned zero counts ends the computation with
    [ZeroDivisionError]. *)
Definition no_counts (ev : event) (x : exn) : Prop :=
  x = ZeroDivisionError /\
  exists net dev vd b tr,
    ev = Ev (validate net dev vd b) (Ret (VTest tr)) /\
    correct tr = 0 /\ failed tr = 0.

Lemma no_counts_fatal : fatal no_counts.
Proof.
  intros ev x (-> & net & dev & vd & b & tr & -> & H0 & H1).
  split; [reflexivity|]. now exists net, dev, vd, b, tr.
Qed.

(** C7. Neither [run] nor [main] handles an exception: when a call to a
    collaborator raises, that call is the last event of the script (nothing
    is retried, nothing else is attempted) and the script ends by raising
    the same exception. *)
Theorem exceptions_propagate fw home args sf lf (m : M unit) h c e :
  m = run fw args sf lf \/ m = main fw home ->
  In (Ev c (Raise e)) (fst (m h)) ->
  snd (m h) = Raise e /\ exists d0, fst (m h) = (d0 ++ [Ev c (Raise e)])%list.
Proof.
  intros [-> | ->] Hin.
  - eapply (stops_at_run fw raised_by raised_by_fatal); [exact Hin|]. now exists c.
  - eapply (stops_at_main fw raised_by raised_by_fatal); [exact Hin|]. now exists c.
Qed.

Lemma exceptions_propagate_witness :
  snd (run failing_fw sample_cli "/out" "/out/logs" []) = Raise (Raised "RuntimeError") /\
  exists d0,
    fst (run failing_fw sample_cli "/out" "/out/logs" [])
    = (d0 ++ [Ev (train 1 (VObj 12) (VObj 11) (VObj 4) (VObj 14) 1000 false)
                (Raise (Raised "RuntimeError"))])%list.
Proof.
  apply (exceptions_propagate failing_fw "/home/u" sample_cli "/out" "/out/logs").
  - left. reflexivity.
  - vm_compute. find_in.
Defined.

(** C9. The division has no guard: when [validate] returns
    [correct = 0] and [failed = 0], that call is the last event of [run]
    (the first division, inside the arguments of the log call, raises
    before anything is logged) and [run] ends with [ZeroDivisionError]. *)
Theorem zero_counts_abort fw args sf lf h net dev vd b tr :
  In (Ev (validate net dev vd b) (Ret (VTest tr))) (fst (run fw args sf lf h)) ->
  correct tr = 0 ->
  failed tr = 0 ->
  snd (run fw args sf lf h) = Raise ZeroDivisionError /\
  exists d0,
    fst (run fw args sf lf h)
    = (d0 ++ [Ev (validate net dev vd b) (Ret (VTest tr))])%list.
Proof.
  intros Hin H0 H1.
  eapply (stops_at_run fw no_counts no_counts_fatal); [exact Hin|].
  split; [reflexivity|]. now exists net, dev, vd, b, tr.
Qed.

Lemma zero_counts_abort_witness :
  snd (run empty_validation_fw sample_cli "/out" "/out/logs" [])
  = Raise ZeroDivisionError /\
  exists d0,
    fst (run empty_validation_fw sample_cli "/out" "/out/logs" [])
    = (d0 ++ [Ev (validate (VObj 12) (VObj 11) (VObj 6) 250)
                (Ret (VTest {| correct := 0; failed := 0;
                               val_loss := PyFloat.zero; val_losses := [] |}))])%list.
Proof.
  apply zero_counts_abort.
  - vm_compute. find_in.
  - reflexivity.
  - reflexivity.
Defined.

(** C1. In an iteration of the epoch loop that completes, the model is
    saved exactly when the IOU of the epoch is greater than [best_iou], or
    the epoch is 0, or the epoch is a multiple of 10. *)
Theorem checkpoint_iff_condition
    fw args sf tb net dev td vd opt epoch best h d best' :
  epoch_body fw args sf tb net dev td vd opt epoch best h = (d, Ret best') ->
  exists te,
    flat_map validate_result d = [te] /\
    correct te + failed te <> 0 /\
    (flat_map saved d <> [] <->
     PyFloat.gtb (iou_of te) best = true \/ epoch = 0 \/ epoch mod 10 = 0).
Proof.
  intros H. apply epoch_body_completed in H.
  destruct H as (tr & te & dropped & sd & d_train & d_val & -> & Ht & Hv & Hne & _).
  exists te. split; [now apply epoch_validate_results|]. split; [exact Hne|].
  rewrite (epoch_saved _ _ _ _ _ _ _ _ _ _ _ _ _ _ _ _ Ht Hv).
  unfold save_condition.
  rewrite <- Z.eqb_eq, <- (Z.eqb_eq (epoch mod 10) 0).
  destruct (PyFloat.gtb (iou_of te) best), (epoch =? 0), (epoch mod 10 =? 0);
    simpl; split; intros H; try discriminate; try tauto; try congruence.
  all: destruct H as [H|[H|H]]; discriminate.
Qed.

Lemma checkpoint_iff_condition_witness :
  exists te,
    flat_map validate_result
      (fst (epoch_body sample_fw sample_cli "/out" (VObj 0) (VObj 12) (VObj 11)
              (VObj 4) (VObj 6) (VObj 14) 10 (PyFloat.int_quotient 9 10) []))
    = [te] /\
    correct te + failed te <> 0 /\
    (flat_map saved
       (fst (epoch_body sample_fw sample_cli "/out" (VObj 0) (VObj 12) (VObj 11)
               (VObj 4) (VObj 6) (VObj 14) 10 (PyFloat.int_quotient 9 10) []))
     <> [] <->
     PyFloat.gtb (iou_of te) (PyFloat.int_quotient 9 10) = true \/
     10 = 0 \/ 10 mod 10 = 0).
Proof.
  apply (checkpoint_iff_condition sample_fw sample_cli "/out" (VObj 0) (VObj 12)
           (VObj 11) (VObj 4) (VObj 6) (VObj 14) 10 (PyFloat.int_quotient 9 10) []
           _ (PyFloat.int_quotient 9 10)).
  vm_compute. reflexivity.
Defined.

(** C2. In an iteration that completes, one IOU is used throughout: with
    [correct] and [failed] the counts that [validate] returned (their sum
    is not zero), the float quotient [correct / (correct + failed)] is the
    value written under ['loss/IOU'], the value printed in the log line,
    the value compared with [best_iou] and stored in it, and the value in
    the names of the files saved. *)
Theorem iou_is_count_quotient
    fw args sf tb net dev td vd opt epoch best h d best' :
  epoch_body fw args sf tb net dev td vd opt epoch best h = (d, Ret best') ->
  exists te,
    flat_map validate_result d = [te] /\
    correct te + failed te <> 0 /\
    let iou := PyFloat.int_quotient (correct te) (correct te + failed te) in
    flat_map (scalar_of "loss/IOU") d = [iou] /\
    In (PyStr.format_d (correct te) ++ "/"
        ++ PyStr.format_d (correct te + failed te) ++ " = "
        ++ PyStr.format_f 6 iou)
       (flat_map log_message d) /\
    best' = (if save_condition iou best epoch then iou else best) /\
    map snd (flat_map saved d)
    = if save_condition iou best epoch
      then [ PyStr.os_path_join sf
               ("epoch_" ++ PyStr.format_0d 2 epoch ++ "_iou_" ++ PyStr.format_f 2 iou);
             PyStr.os_path_join sf
               ("epoch_" ++ PyStr.format_0d 2 epoch ++ "_iou_" ++ PyStr.format_f 2 iou
                ++ "_statedict.pt") ]
      else [].
Proof.
  intros H. apply epoch_body_completed in H.
  destruct H as (tr & te & dropped & sd & d_train & d_val & -> & Ht & Hv & Hne & ->).
  exists te. split; [now apply epoch_validate_results|]. split; [exact Hne|].
  cbv zeta. fold (iou_of te).
  split; [now apply epoch_iou_scalars|].
  split; [rewrite (epoch_log_messages _ _ _ _ _ _ _ _ _ _ _ _ _ _ _ _ Ht Hv); find_in|].
  split; [reflexivity|].
  rewrite (epoch_saved _ _ _ _ _ _ _ _ _ _ _ _ _ _ _ _ Ht Hv).
  destruct (save_condition (iou_of te) best epoch); reflexivity.
Qed.

Lemma iou_is_count_quotient_witness :
  exists te,
    flat_map validate_result
      (fst (epoch_body sample_fw sample_cli "/out" (VObj 0) (VObj 12) (VObj 11)
              (VObj 4) (VObj 6) (VObj 14) 0 PyFloat.zero []))
    = [te] /\
    correct te + failed te <> 0 /\
    let iou := PyFloat.int_quotient (correct te) (correct te + failed te) in
    flat_map (scalar_of "loss/IOU")
      (fst (epoch_body sample_fw sample_cli "/out" (VObj 0) (VObj 12) (VObj 11)
              (VObj 4) (VObj 6) (VObj 14) 0 PyFloat.zero []))
    = [iou] /\
    In (PyStr.format_d (correct te) ++ "/"
        ++ PyStr.format_d (correct te + failed te) ++ " = "
        ++ PyStr.format_f 6 iou)
       (flat_map log_message
          (fst (epoch_body sample_fw sample_cli "/out" (VObj 0) (VObj 12) (VObj 11)
                  (VObj 4) (VObj 6) (VObj 14) 0 PyFloat.zero []))) /\
    PyFloat.int_quotient 9 10 = (if save_condition iou PyFloat.zero 0 then iou else PyFloat.zero) /\
    map snd
      (flat_map saved
         (fst (epoch_body sample_fw sample_cli "/out" (VObj 0) (VObj 12) (VObj 11)
                 (VObj 4) (VObj 6) (VObj 14) 0 PyFloat.zero [])))
    = if save_condition iou PyFloat.zero 0
      then [ PyStr.os_path_join "/out"
               ("epoch_" ++ PyStr.format_0d 2 0 ++ "_iou_" ++ PyStr.format_f 2 iou);
             PyStr.os_path_join "/out"
               ("epoch_" ++ PyStr.format_0d 2 0 ++ "_iou_" ++ PyStr.format_f 2 iou
                ++ "_statedict.pt") ]
      else [].
Proof.
  apply (iou_is_count_quotient sample_fw sample_cli "/out" (VObj 0) (VObj 12)
           (VObj 11) (VObj 4) (VObj 6) (VObj 14) 0 PyFloat.zero []
           _ (PyFloat.int_quotient 9 10)).
  vm_compute. reflexivity.
Defined.

(** C8. An iteration that saves a checkpoint leaves [best_iou] at the IOU
    of the epoch, whatever it was before; one that saves nothing leaves it
    unchanged.  So [best_iou] can go down: with [sample_fw] it is 0.9 after
    ten epochs and 0.5 after the eleventh, whose checkpoint is forced by
    [epoch % 10 == 0]. *)
Theorem best_iou_follows_checkpoint :
  (forall fw args sf tb net dev td vd opt epoch best h d best',
      epoch_body fw args sf tb net dev td vd opt epoch best h = (d, Ret best') ->
      exists te,
        flat_map validate_result d = [te] /\
        (flat_map saved d <> [] -> best' = iou_of te) /\
        (flat_map saved d = [] -> best' = best)) /\
  (exists b10 b11,
      snd (epoch_loop sample_fw (set_epochs sample_cli 10) "/out" (VObj 0)
             (VObj 12) (VObj 11) (VObj 4) (VObj 6) (VObj 14) []) = Ret b10 /\
      snd (epoch_loop sample_fw (set_epochs sample_cli 11) "/out" (VObj 0)
             (VObj 12) (VObj 11) (VObj 4) (VObj 6) (VObj 14) []) = Ret b11 /\
      b10 = PyFloat.int_quotient 9 10 /\
      b11 = PyFloat.int_quotient 1 2 /\
      PyFloat.gtb b10 b11 = true).
Proof.
  split.
  - intros fw args sf tb net dev td vd opt epoch best h d best' H.
    apply epoch_body_completed in H.
    destruct H as (tr & te & dropped & sd & d_train & d_val & -> & Ht & Hv & _ & ->).
    exists te. split; [now apply epoch_validate_results|].
    rewrite (epoch_saved _ _ _ _ _ _ _ _ _ _ _ _ _ _ _ _ Ht Hv).
    destruct (save_condition (iou_of te) best epoch); split; intros H;
      try reflexivity; try discriminate; now contradiction H.
  - exists (PyFloat.int_quotient 9 10), (PyFloat.int_quotient 1 2).
    repeat split; vm_compute; reflexivity.
Qed.

Lemma best_iou_follows_checkpoint_witness :
  exists te,
    flat_map validate_result
      (fst (epoch_body sample_fw sample_cli "/out" (VObj 0) (VObj 12) (VObj 11)
              (VObj 4) (VObj 6) (VObj 14) 10 (PyFloat.int_quotient 9 10)
              after_one_validation))
    = [te] /\
    (flat_map saved
       (fst (epoch_body sample_fw sample_cli "/out" (VObj 0) (VObj 12) (VObj 11)
               (VObj 4) (VObj 6) (VObj 14) 10 (PyFloat.int_quotient 9 10)
               after_one_validation))
     <> [] -> PyFloat.int_quotient 1 2 = iou_of te) /\
    (flat_map saved
       (fst (epoch_body sample_fw sample_cli "/out" (VObj 0) (VObj 12) (VObj 11)
               (VObj 4) (VObj 6) (VObj 14) 10 (PyFloat.int_quotient 9 10)
               after_one_validation))
     = [] -> PyFloat.int_quotient 1 2 = PyFloat.int_quotient 9 10).
Proof.
  apply (proj1 best_iou_follows_checkpoint sample_fw sample_cli "/out" (VObj 0)
           (VObj 12) (VObj 11) (VObj 4) (VObj 6) (VObj 14) 10
           (PyFloat.int_quotient 9 10) after_one_validation _
           (PyFloat.int_quotient 1 2)).
  vm_compute. reflexivity.
Defined.

(** C6. A [run] that completes opened [arch.txt] in the save folder for
    writing and had the architecture summary printed while [sys.stdout] was
    that file; an iteration of the epoch loop that completes saved
    nothing, or saved the model under [epoch_%02d_iou_%0.2f] and then its
    state dict under [epoch_%02d_iou_%0.2f_statedict.pt], both in the save
    folder and both named from the epoch and its IOU; and no [run], however
    it ends, opens another file or saves under another name. *)
Theorem output_files fw args sf :
  (forall lf h,
      snd (run fw args sf lf h) = Ret tt ->
      exists f net v1 v2 before after,
        fst (run fw args sf lf h)
        = (before
           ++ [ Ev (open_ (PyStr.os_path_join sf "arch.txt") "w") (Ret f);
                SetStdout (Some f);
                Ev (summary net (1 * use_depth args + 3 * use_rgb args, 300, 300))
                   (Ret v1);
                SetStdout None;
                Ev (file_close f) (Ret v2) ]
           ++ after)%list) /\
  (forall tb net dev td vd opt epoch best h d best',
      epoch_body fw args sf tb net dev td vd opt epoch best h = (d, Ret best') ->
      exists te sd,
        flat_map validate_result d = [te] /\
        flat_map saved d
        = (if save_condition (iou_of te) best epoch
           then [ (net,
                   PyStr.os_path_join sf
                     ("epoch_" ++ PyStr.format_0d 2 epoch ++ "_iou_"
                      ++ PyStr.format_f 2 (iou_of te)));
                  (sd,
                   PyStr.os_path_join sf
                     ("epoch_" ++ PyStr.format_0d 2 epoch ++ "_iou_"
                      ++ PyStr.format_f 2 (iou_of te) ++ "_statedict.pt")) ]
           else []) /\
        (save_condition (iou_of te) best epoch = true ->
         In (Ev (net_state_dict net) (Ret sd)) d)) /\
  (forall lf h,
      Forall
        (fun ev =>
           match ev with
           | Ev (open_ p m) _ => p = PyStr.os_path_join sf "arch.txt" /\ m = "w"
           | Ev (torch_save _ p) _ =>
               exists e iou,
                 0 <= e < epochs args /\
                 (p = PyStr.os_path_join sf
                        ("epoch_" ++ PyStr.format_0d 2 e ++ "_iou_"
                         ++ PyStr.format_f 2 iou) \/
                  p = PyStr.os_path_join sf
                        ("epoch_" ++ PyStr.format_0d 2 e ++ "_iou_"
                         ++ PyStr.format_f 2 iou ++ "_statedict.pt"))
           | _ => True
           end)
        (fst (run fw args sf lf h))).
Proof.
  split; [|split].
  3:{ intros lf h. eapply Forall_impl; [|apply run_configured].
      intros ev Hev. destruct ev as [[] o|]; try exact I; exact Hev. }
  - intros lf h Hr.
    destruct (run fw args sf lf h) as [d r] eqn:H. simpl in *. subst r.
    apply run_completed in H. destruct H as (sv & ds & best & -> & _).
    exists (sv_f sv), (sv_net sv), (sv_dropped sv 5%nat), (sv_dropped sv 6%nat).
    eexists (firstn 17 (setup_events args sf lf sv)), (List.concat ds).
    reflexivity.
  - intros tb net dev td vd opt epoch best h d best' H.
    apply epoch_body_completed in H.
    destruct H as (tr & te & dropped & sd & d_train & d_val & -> & Ht & Hv & _ & _).
    exists te, sd. split; [now apply epoch_validate_results|].
    split; [now apply epoch_saved|].
    intros Hc. unfold epoch_events, checkpoint_events. rewrite Hc.
    rewrite !in_app_iff. do 4 right. find_in.
Qed.

Lemma output_files_witness :
  (exists f net v1 v2 before after,
      fst (run sample_fw sample_cli "/out" "/out/logs" [])
      = (before
         ++ [ Ev (open_ (PyStr.os_path_join "/out" "arch.txt") "w") (Ret f);
              SetStdout (Some f);
              Ev (summary net (1 * use_depth sample_cli + 3 * use_rgb sample_cli,
                               300, 300)) (Ret v1);
              SetStdout None;
              Ev (file_close f) (Ret v2) ]
         ++ after)%list) /\
  (exists te sd,
      flat_map validate_result
        (fst (epoch_body sample_fw sample_cli "/out" (VObj 0) (VObj 12) (VObj 11)
                (VObj 4) (VObj 6) (VObj 14) 3 PyFloat.zero []))
      = [te] /\
      flat_map saved
        (fst (epoch_body sample_fw sample_cli "/out" (VObj 0) (VObj 12) (VObj 11)
                (VObj 4) (VObj 6) (VObj 14) 3 PyFloat.zero []))
      = (if save_condition (iou_of te) PyFloat.zero 3
         then [ (VObj 12,
                 PyStr.os_path_join "/out"
                   ("epoch_" ++ PyStr.format_0d 2 3 ++ "_iou_"
                    ++ PyStr.format_f 2 (iou_of te)));
                (sd,
                 PyStr.os_path_join "/out"
                   ("epoch_" ++ PyStr.format_0d 2 3 ++ "_iou_"
                    ++ PyStr.format_f 2 (iou_of te) ++ "_statedict.pt")) ]
         else []) /\
      (save_condition (iou_of te) PyFloat.zero 3 = true ->
       In (Ev (net_state_dict (VObj 12)) (Ret sd))
          (fst (epoch_body sample_fw sample_cli "/out" (VObj 0) (VObj 12) (VObj 11)
                  (VObj 4) (VObj 6) (VObj 14) 3 PyFloat.zero [])))).
Proof.
  split.
  - apply (proj1 (output_files sample_fw sample_cli "/out") "/out/logs" []).
    vm_compute. reflexivity.
  - apply (proj1 (proj2 (output_files sample_fw sample_cli "/out")) (VObj 0) (VObj 12)
             (VObj 11) (VObj 4) (VObj 6) (VObj 14) 3 PyFloat.zero [] _
             (PyFloat.int_quotient 9 10)).
    vm_compute. reflexivity.
Defined.

Lemma flat_map_nil {X Y} (l : list X) : flat_map (fun _ => @nil Y) l = [].
Proof. induction l; simpl; auto. Qed.

(** What a completed [run] shows of the set-up, the epoch loop adding
    nothing. *)
Lemma run_setup_observation {X} (f : event -> list X) fw args sf lf h d :
  (forall tb net dev td vd opt epoch best tr te dropped sd d_train d_val,
      losses_logged tb "train_loss/" epoch (train_losses tr) d_train ->
      losses_logged tb "val_loss/" epoch (val_losses te) d_val ->
      flat_map f
        (epoch_events args sf tb net dev td vd opt epoch best tr te dropped sd
           d_train d_val) = []) ->
  run fw args sf lf h = (d, Ret tt) ->
  exists sv, flat_map f d = flat_map f (setup_events args sf lf sv).
Proof.
  intros Hf H. apply run_completed in H. destruct H as (sv & ds & best & -> & Hit).
  exists sv. rewrite flat_map_app.
  erewrite iterates_flat_map with (g := fun _ => []); [|clear - Hf|exact Hit].
  - now rewrite flat_map_nil, app_nil_r.
  - intros epoch b h' d' b' Hd. apply epoch_body_completed in Hd.
    destruct Hd as (tr & te & dropped & sd & d_train & d_val & -> & Ht & Hv & _).
    now apply Hf.
Qed.

(** Two windows [(start, end, rotate)] partition the unit interval when the
    first starts at 0.0, the second ends at 1.0, the first ends where the
    second starts, and neither ends before it starts. *)
Definition partition_unit_interval (w1 w2 : float * float * float) : Prop :=
  fst (fst w1) = PyFloat.zero /\
  snd (fst w2) = PyFloat.one /\
  snd (fst w1) = fst (fst w2) /\
  SFleb (fst (fst w1)) (snd (fst w1)) = true /\
  SFleb (fst (fst w2)) (snd (fst w2)) = true.

(** C5, as stated: the datasets of a [run] are constructed over two
    windows that partition the unit interval. *)
Definition windows_partition (d : list event) : Prop :=
  exists w1 w2,
    flat_map dataset_window d = [w1; w2] /\ partition_unit_interval w1 w2.

(** What the parser returns for [--split 1.5], which [type=float] accepts. *)
Definition split_above_one_cli : Args :=
  {| network := "ggcnn"; dataset := "cornell"; dataset_path := "/data";
     use_depth := 1; use_rgb := 0; split := PyFloat.int_quotient 3 2;
     ds_rotate := PyFloat.zero; num_workers := 8; batch_size := 8; epochs := 2;
     batches_per_epoch := 1000; val_batches := 250; description := "";
     vis := false |}.

(** C5 fails for a split outside the unit interval: with [--split 1.5]
    the [run] completes, having constructed the training dataset over the
    window from 0.0 to 1.5 and the validation dataset over the window from
    1.5 to 1.0, which ends before it starts. *)
Lemma split_above_one_is_no_partition :
  snd (run sample_fw split_above_one_cli "/out" "/out/logs" []) = Ret tt /\
  flat_map dataset_window (fst (run sample_fw split_above_one_cli "/out" "/out/logs" []))
  = [ (PyFloat.zero, PyFloat.int_quotient 3 2, PyFloat.zero);
      (PyFloat.int_quotient 3 2, PyFloat.one, PyFloat.zero) ] /\
  SFleb (PyFloat.int_quotient 3 2) PyFloat.one = false /\
  ~ windows_partition (fst (run sample_fw split_above_one_cli "/out" "/out/logs" [])).
Proof.
  assert (Hw :
    flat_map dataset_window
      (fst (run sample_fw split_above_one_cli "/out" "/out/logs" []))
    = [ (PyFloat.zero, PyFloat.int_quotient 3 2, PyFloat.zero);
        (PyFloat.int_quotient 3 2, PyFloat.one, PyFloat.zero) ]).
  { vm_compute. reflexivity. }
  split; [vm_compute; reflexivity|]. split; [exact Hw|].
  split; [vm_compute; reflexivity|].
  intros (w1 & w2 & Heq & _ & _ & _ & _ & Hle).
  rewrite Hw in Heq. injection Heq as _ <-.
  vm_compute in Hle. discriminate Hle.
Qed.

(** C5, amended.  Every dataset that [run] constructs is given the window
    from 0.0 to [args.split] or the window from [args.split] to 1.0, with
    [args.ds_rotate]; a [run] that completes constructed exactly two, the
    training dataset over the first window and then the validation dataset
    over the second, so that the first window ends where the second starts;
    and these two windows partition the unit interval exactly when
    [0.0 <= args.split <= 1.0], which [run] does not check. *)
Theorem dataset_windows_abut fw args sf lf h d r :
  run fw args sf lf h = (d, r) ->
  Forall
    (fun ev =>
       forall w, In w (dataset_window ev) ->
         w = (PyFloat.zero, split args, ds_rotate args) \/
         w = (split args, PyFloat.one, ds_rotate args)) d /\
  (r = Ret tt ->
   flat_map dataset_window d
   = [ (PyFloat.zero, split args, ds_rotate args);
       (split args, PyFloat.one, ds_rotate args) ] /\
   (windows_partition d <->
    SFleb PyFloat.zero (split args) = true /\
    SFleb (split args) PyFloat.one = true)).
Proof.
  intros H.
  assert (Hdone :
    r = Ret tt ->
    flat_map dataset_window d
    = [ (PyFloat.zero, split args, ds_rotate args);
        (split args, PyFloat.one, ds_rotate args) ]).
  { intros ->. eapply run_setup_observation in H.
    - destruct H as (sv & ->). reflexivity.
    - intros. now apply epoch_dataset_windows. }
  split; [|intros Hr; split; [now apply Hdone|]].
  - pose proof (run_configured fw args sf lf h) as Hc. rewrite H in Hc. simpl in Hc.
    eapply Forall_impl; [|exact Hc]. intros ev Hev w Hw.
    destruct ev as [[] o|]; simpl in Hw; try contradiction.
    destruct Hw as [<-|[]]. simpl in Hev.
    destruct Hev as (_ & -> & _ & _ & _ & _ & [[-> ->]|[-> ->]]); auto.
  - unfold windows_partition. rewrite (Hdone Hr). split.
    + intros (w1 & w2 & Heq & _ & _ & _ & H1 & H2).
      injection Heq as <- <-. simpl in H1, H2. now split.
    + intros [H1 H2]. do 2 eexists. split; [reflexivity|].
      unfold partition_unit_interval. simpl. auto.
Qed.

Lemma dataset_windows_abut_witness :
  Forall
    (fun ev =>
       forall w, In w (dataset_window ev) ->
         w = (PyFloat.zero, split sample_cli, ds_rotate sample_cli) \/
         w = (split sample_cli, PyFloat.one, ds_rotate sample_cli))
    (fst (run sample_fw sample_cli "/out" "/out/logs" [])) /\
  flat_map dataset_window (fst (run sample_fw sample_cli "/out" "/out/logs" []))
  = [ (PyFloat.zero, split sample_cli, ds_rotate sample_cli);
      (split sample_cli, PyFloat.one, ds_rotate sample_cli) ] /\
  windows_partition (fst (run sample_fw sample_cli "/out" "/out/logs" [])).
Proof.
  destruct (dataset_windows_abut sample_fw sample_cli "/out" "/out/logs" []
              (fst (run sample_fw sample_cli "/out" "/out/logs" []))
              (snd (run sample_fw sample_cli "/out" "/out/logs" [])))
    as [Hall Hdone].
  - apply surjective_pairing.
  - split; [exact Hall|].
    assert (Hr : snd (run sample_fw sample_cli "/out" "/out/logs" []) = Ret tt).
    { vm_compute. reflexivity. }
    destruct (Hdone Hr) as [Hw Hp]. split; [exact Hw|].
    apply Hp. split; vm_compute; reflexivity.
Defined.











(** ** Sample values *)

Example format_0d_epoch_3 : PyStr.format_0d 2 3 = "03".
Proof. reflexivity. Qed.

Example format_0d_epoch_100 : PyStr.format_0d 2 100 = "100".
Proof. reflexivity. Qed.

Example format_f_half : PyStr.format_f 2 (PyFloat.int_quotient 1 2) = "0.50".
Proof. reflexivity. Qed.

Example format_f_tie_to_even : PyStr.format_f 2 (PyFloat.int_quotient 1 8) = "0.12".
Proof. reflexivity. Qed.

Example format_f_two_thirds : PyStr.format_f 6 (PyFloat.int_quotient 2 3) = "0.666667".
Proof. reflexivity. Qed.

Example int_quotient_third :
  PyFloat.int_quotient 1 3 = S754_finite false 6004799503160661 (-54).
Proof. reflexivity. Qed.

Example int_quotient_one : PyFloat.int_quotient 7 7 = PyFloat.one.
Proof. reflexivity. Qed.

Example title_cornell : PyStr.title "cornell" = "Cornell".
Proof. reflexivity. Qed.

Example split_tags : PyStr.split "gmd cor jaq" = ["gmd"; "cor"; "jaq"].
Proof. reflexivity. Qed.

Example checkpoint_name_sample :
  checkpoint_name 10 (PyFloat.int_quotient 1 2) = "epoch_10_iou_0.50".
Proof. reflexivity. Qed.

Example statedict_name_sample :
  statedict_name 0 (PyFloat.int_quotient 9 10) = "epoch_00_iou_0.90_statedict.pt".
Proof. reflexivity. Qed.

Example input_data_path_sample :
  INPUT_DATA_PATH "/home/u"
  = "/home/u/Project/gmdata/datasets/train_datasets/gg_data/small_data".
Proof. reflexivity. Qed.

(** * Further properties of the script *)

(** ** Every way the script can fail *)


(** The last event of [d], or [prev] when [d] is empty. *)
Definition last_from (prev : option event) (d : list event) : option event :=
  fold_left (fun _ ev => Some ev) d prev.


Lemma last_from_app prev d1 d2 :
  last_from prev (d1 ++ d2) = last_from (last_from prev d1) d2.
Proof. apply fold_left_app. Qed.












Section Blames.

Variable fw : history -> call -> outcome value.






End Blames.







(** ** What a trace shows, however the script ends *)

(** Whatever the outcome of [m], what [f] finds in its events is an
    initial part of [L]; and all of [L] when [m] returns. *)
Definition shows {X A} (f : event -> list X) (L : list X) (m : M A) : Prop :=
  forall h,
    (exists rest, L = (flat_map f (fst (m h)) ++ rest)%list) /\
    (forall a, snd (m h) = Ret a -> flat_map f (fst (m h)) = L).

Section Shows.

Context {X : Type} (f : event -> list X).

Lemma shows_silent {A} (m : M A) :
  (forall h, fst (m h) = []) -> shows f [] m.
Proof.
  intros Hs h. rewrite Hs. simpl. split; [now exists []|reflexivity].
Qed.

Lemma shows_bind {A B} L1 L2 (m : M A) (k : A -> M B) :
  shows f L1 m -> (forall a, shows f L2 (k a)) -> shows f (L1 ++ L2) (bind m k).
Proof.
  intros Hm Hk h. unfold bind. destruct (Hm h) as [(rest1 & H1) H1'].
  destruct (m h) as [d1 [a|e]]; simpl in *.
  - destruct (Hk a (h ++ d1)%list) as [(rest2 & H2) H2'].
    destruct (k a (h ++ d1)%list) as [d2 r]. simpl in *.
    rewrite flat_map_app, (H1' a eq_refl). split.
    + exists rest2. now rewrite H2, app_assoc.
    + intros b Hb. now rewrite (H2' b Hb).
  - split; [|discriminate]. exists (rest1 ++ L2)%list. now rewrite H1, app_assoc.
Qed.

Lemma shows_after {A B} L (m : M A) (k : A -> M B) :
  shows f [] m -> (forall a, shows f L (k a)) -> shows f L (bind m k).
Proof. intros Hm Hk. now apply (shows_bind [] L). Qed.

Lemma shows_before {A B} L (m : M A) (k : A -> M B) :
  shows f L m -> (forall a, shows f [] (k a)) -> shows f L (bind m k).
Proof.
  intros Hm Hk. rewrite <- (app_nil_r L). now apply shows_bind.
Qed.

Lemma shows_do_call fw c L :
  (forall r, f (Ev c r) = L) -> shows f L (do_call fw c).
Proof.
  intros Hc h. unfold do_call. simpl. rewrite Hc, app_nil_r.
  split; [exists []; now rewrite app_nil_r|reflexivity].
Qed.

Lemma shows_emit ev : shows f (f ev) (emit ev).
Proof.
  intros h. simpl. rewrite app_nil_r.
  split; [exists []; now rewrite app_nil_r|reflexivity].
Qed.

Lemma shows_for_each {A S} (g : A -> list X) (body : A -> S -> M S) xs :
  (forall x s, shows f (g x) (body x s)) ->
  forall s, shows f (flat_map g xs) (for_each xs body s).
Proof.
  intros Hb. induction xs as [|x xs IH]; intros s; simpl.
  - now apply shows_silent.
  - apply shows_bind; [apply Hb|apply IH].
Qed.

Lemma shows_log_losses fw tb prefix losses epoch :
  (forall t v r, f (Ev (tb_add_scalar tb t v epoch) r) = []) ->
  shows f [] (log_losses fw tb prefix losses epoch).
Proof.
  intros Hf. unfold log_losses.
  rewrite <- (flat_map_nil (Y := X) losses).
  apply shows_for_each. intros nl [].
  apply shows_before; [apply shows_do_call; apply Hf|].
  intros _. now apply shows_silent.
Qed.

End Shows.

(** A step that [f] does not see, or the next step that it does. *)
Ltac shows_step :=
  lazymatch goal with
  | |- shows _ _ (bind (do_call _ _) _) =>
      first
        [ apply shows_after;
          [apply shows_do_call; intros ?; reflexivity|intros ?]
        | apply (shows_bind _ [_] _);
          [apply shows_do_call; intros ?; reflexivity|intros ?] ]
  | |- shows ?f ?L (bind (emit ?ev) ?k) =>
      first
        [ apply (shows_after f L (emit ev) k); [apply (shows_emit f ev)|intros ?]
        | apply (shows_bind f [_] _ (emit ev) k); [apply (shows_emit f ev)|intros ?] ]
  | |- shows _ _ (bind (log_losses _ _ _ _ _) _) =>
      apply shows_after;
      [apply shows_log_losses; intros; reflexivity|intros ?]
  | |- shows _ _ (bind (as_train_results _) _) =>
      apply shows_after;
      [apply shows_silent; apply silent_as_train_results|intros ?]
  | |- shows _ _ (bind (as_test_results _) _) =>
      apply shows_after;
      [apply shows_silent; apply silent_as_test_results|intros ?]
  | |- shows _ _ (bind (int_truediv _ _) _) =>
      apply shows_after;
      [apply shows_silent; apply silent_int_truediv|intros ?]
  | |- shows _ [] (ret _) => apply shows_silent; reflexivity
  | |- shows _ _ (if ?b then _ else _) => destruct b
  end.

(** The calls to [train], with the epoch, and to [validate]. *)
Inductive pass :=
| Trained (epoch : Z)
| Validated.

Definition pass_of (ev : event) : list pass :=
  match ev with
  | Ev (train e _ _ _ _ _ _) _ => [Trained e]
  | Ev (validate _ _ _ _) _ => [Validated]
  | _ => []
  end.

Lemma epoch_body_passes fw args sf tb net dev td vd opt epoch best :
  shows pass_of [Trained epoch; Validated]
    (epoch_body fw args sf tb net dev td vd opt epoch best).
Proof.
  unfold epoch_body. repeat shows_step.
Qed.

Lemma run_passes fw args sf lf :
  shows pass_of (flat_map (fun e => [Trained e; Validated]) (range (epochs args)))
    (run fw args sf lf).
Proof.
  unfold run, epoch_loop. cbv zeta. repeat shows_step.
  apply shows_before; [|intros ?; now apply shows_silent].
  apply shows_for_each. intros epoch best. apply epoch_body_passes.
Qed.

(** X2. However [run] ends, its calls to [train] and [validate] are an
    initial part of the sequence train 0, validate, train 1, validate, ...
    over [range(args.epochs)]: epochs are trained in increasing order
    without a gap, each is validated before the next is trained, and no
    epoch is validated that was not trained.  A [run] that returns made
    the whole sequence. *)
Theorem train_and_validate_alternate fw args sf lf h :
  (exists rest,
      flat_map (fun e => [Trained e; Validated]) (range (epochs args))
      = (flat_map pass_of (fst (run fw args sf lf h)) ++ rest)%list) /\
  (snd (run fw args sf lf h) = Ret tt ->
   flat_map pass_of (fst (run fw args sf lf h))
   = flat_map (fun e => [Trained e; Validated]) (range (epochs args))).
Proof.
  destruct (run_passes fw args sf lf h) as [Hpre Hall].
  split; [exact Hpre|]. intros Hr. now apply (Hall tt).
Qed.

Lemma train_and_validate_alternate_witness :
  flat_map pass_of (fst (run sample_fw no_channels_cli "/out" "/out/logs" []))
  = [Trained 0; Validated; Trained 1; Validated] /\
  flat_map pass_of (fst (run failing_fw sample_cli "/out" "/out/logs" []))
  = [Trained 0; Validated; Trained 1].
Proof.
  split.
  - apply (proj2 (train_and_validate_alternate sample_fw no_channels_cli "/out"
                    "/out/logs" [])).
    vm_compute. reflexivity.
  - vm_compute. reflexivity.
Defined.

(** ** The epoch loop as a whole *)

Lemma range_in n x : 0 <= x < n -> In x (range n).
Proof.
  intros Hx. unfold range. apply in_map_iff. exists (Z.to_nat x).
  split; [lia|]. apply in_seq. lia.
Qed.

Lemma range_first n :
  1 <= n -> exists rest, range n = 0 :: rest /\ forall x, In x rest -> 0 <= x < n.
Proof.
  intros Hn. unfold range.
  destruct (Z.to_nat n) as [|k] eqn:Ek; [lia|]. simpl.
  eexists. split; [reflexivity|].
  intros x Hx. apply in_map_iff in Hx. destruct Hx as (j & <- & Hj).
  apply in_seq in Hj. lia.
Qed.

Lemma save_condition_forced iou best epoch :
  epoch mod 10 = 0 -> save_condition iou best epoch = true.
Proof.
  intros H. unfold save_condition. apply Z.eqb_eq in H. rewrite H.
  apply orb_true_r.
Qed.

(** Each element of a completed loop has its iteration. *)
Lemma iterates_In {A S} (body : A -> S -> M S) xs s h ds s' x :
  iterates body xs s h ds s' ->
  In x xs ->
  exists d sx hx sx', In d ds /\ body x sx hx = (d, Ret sx').
Proof.
  induction 1 as [|y ys s h d s1 ds s' Hd _ IH]; intros Hx; [contradiction|].
  destruct Hx as [->|Hx].
  - exists d, s, h, s1. split; [now left|exact Hd].
  - destruct (IH Hx) as (d' & sx & hx & sx' & Hin & Hb).
    exists d', sx, hx, sx'. split; [now right|exact Hb].
Qed.

(** What a completed stretch of the epoch loop has saved: nothing, and
    [best_iou] is as before; or files of which the last is the state dict
    of one of its epochs, named with the [best_iou] it leaves. *)
Lemma iterates_last_saved fw args sf tb net dev td vd opt :
  forall epochs_ best h ds best',
    iterates (epoch_body fw args sf tb net dev td vd opt) epochs_ best h ds best' ->
    (map snd (flat_map saved (List.concat ds)) = [] /\ best' = best) \/
    (exists e before,
        In e epochs_ /\
        map snd (flat_map saved (List.concat ds))
        = (before ++ [PyStr.os_path_join sf (statedict_name e best')])%list).
Proof.
  intros epochs_ best h ds best' Hit.
  induction Hit as [|epoch epochs_ best h d best1 ds best' Hd _ IH]; simpl.
  - now left.
  - apply epoch_body_completed in Hd.
    destruct Hd as (tr & te & dropped & sd & d_train & d_val & -> & Ht & Hv & _ & ->).
    rewrite flat_map_app, map_app.
    rewrite (epoch_saved _ _ _ _ _ _ _ _ _ _ _ _ _ _ _ _ Ht Hv).
    destruct IH as [[Hnil ->]|(e & before & He & Hlast)].
    + rewrite Hnil, app_nil_r.
      destruct (save_condition (iou_of te) best epoch).
      * right. exists epoch, [PyStr.os_path_join sf (checkpoint_name epoch (iou_of te))].
        split; [now left|reflexivity].
      * now left.
    + right. exists e. eexists. split; [now right|].
      rewrite Hlast, app_assoc. reflexivity.
Qed.

(** X3. When the epoch loop completes at least one epoch, the last file
    it saved is the state dict of one of its epochs, and the IOU in the
    name of that file is the [best_iou] the loop ends with: [best_iou] is
    always the IOU of the most recent checkpoint. *)
Theorem last_checkpoint_has_best_iou fw args sf tb net dev td vd opt h d best :
  1 <= epochs args ->
  epoch_loop fw args sf tb net dev td vd opt h = (d, Ret best) ->
  exists e before,
    0 <= e < epochs args /\
    map snd (flat_map saved d)
    = (before ++ [PyStr.os_path_join sf (statedict_name e best)])%list.
Proof.
  intros Hn H. unfold epoch_loop in H.
  apply for_each_iterates in H. destruct H as (ds & Hit & ->).
  destruct (range_first _ Hn) as (rest & Hrange & Hrest).
  assert (Hall : forall x, In x (range (epochs args)) -> 0 <= x < epochs args)
    by (intros x; apply in_range).
  rewrite Hrange in Hit. inversion Hit as [|x xs s h0 d0 s1 ds0 s' Hd Hit']; subst.
  apply iterates_last_saved in Hit'.
  apply epoch_body_completed in Hd.
  destruct Hd as (tr & te & dropped & sd & d_train & d_val & -> & Ht & Hv & _ & ->).
  rewrite concat_cons, flat_map_app, map_app.
  rewrite (epoch_saved _ _ _ _ _ _ _ _ _ _ _ _ _ _ _ _ Ht Hv).
  rewrite (save_condition_forced _ _ 0 eq_refl) in *.
  destruct Hit' as [[Hnil ->]|(e & before & He & Hlast)].
  - rewrite Hnil, app_nil_r. exists 0. eexists [_]. split; [lia|reflexivity].
  - exists e. eexists. split; [apply Hrest; exact He|].
    rewrite Hlast, app_assoc. reflexivity.
Qed.

Lemma last_checkpoint_has_best_iou_witness :
  exists e before,
    0 <= e < epochs sample_cli /\
    map snd
      (flat_map saved
         (fst (epoch_loop sample_fw sample_cli "/out" (VObj 0) (VObj 12) (VObj 11)
                 (VObj 4) (VObj 6) (VObj 14) [])))
    = (before ++ [PyStr.os_path_join "/out"
                    (statedict_name e (PyFloat.int_quotient 1 2))])%list.
Proof.
  apply (last_checkpoint_has_best_iou sample_fw sample_cli "/out" (VObj 0)
           (VObj 12) (VObj 11) (VObj 4) (VObj 6) (VObj 14) []).
  - vm_compute. discriminate.
  - vm_compute. reflexivity.
Defined.

(** X4. A [run] that completes has saved, for epoch 0 and for every
    epoch that is a multiple of 10, the model and then its state dict,
    whatever the IOUs were. *)
Theorem forced_checkpoints_saved fw args sf lf h d e :
  run fw args sf lf h = (d, Ret tt) ->
  0 <= e < epochs args ->
  e mod 10 = 0 ->
  exists net sd iou before after,
    flat_map saved d
    = (before
       ++ [ (net, PyStr.os_path_join sf (checkpoint_name e iou));
            (sd, PyStr.os_path_join sf (statedict_name e iou)) ]
       ++ after)%list.
Proof.
  intros H He Hmod. apply run_completed in H.
  destruct H as (sv & ds & best & -> & Hit).
  destruct (iterates_In _ _ _ _ _ _ e Hit (range_in _ _ He))
    as (seg & bx & hx & bx' & Hseg & Hbody).
  apply epoch_body_completed in Hbody.
  destruct Hbody as (tr & te & dropped & sd & d_train & d_val & -> & Ht & Hv & _ & _).
  apply in_split in Hseg. destruct Hseg as (ds1 & ds2 & ->).
  rewrite flat_map_app, concat_app, concat_cons, !flat_map_app.
  rewrite (epoch_saved _ _ _ _ _ _ _ _ _ _ _ _ _ _ _ _ Ht Hv).
  rewrite (save_condition_forced _ _ e Hmod).
  exists (sv_net sv), sd, (iou_of te).
  exists (flat_map saved (setup_events args sf lf sv)
          ++ flat_map saved (List.concat ds1))%list,
    (flat_map saved (List.concat ds2)).
  rewrite <- app_assoc. reflexivity.
Qed.

Lemma forced_checkpoints_saved_witness :
  exists net sd iou before after,
    flat_map saved (fst (run sample_fw sample_cli "/out" "/out/logs" []))
    = (before
       ++ [ (net, PyStr.os_path_join "/out" (checkpoint_name 10 iou));
            (sd, PyStr.os_path_join "/out" (statedict_name 10 iou)) ]
       ++ after)%list.
Proof.
  apply (forced_checkpoints_saved sample_fw sample_cli "/out" "/out/logs" []).
  - vm_compute. reflexivity.
  - simpl. lia.
  - reflexivity.
Defined.

(** ** The order of floats *)

Lemma SFltb_irrefl (a : float) : SFltb a a = false.
Proof.
  unfold SFltb, SFcompare. destruct a as [s|s| |s m e]; try reflexivity.
  - destruct s; reflexivity.
  - rewrite Z.compare_refl.
    change (Pos.compare_cont Eq m m) with (Pos.compare m m).
    rewrite Pos.compare_refl. destruct s; reflexivity.
Qed.

Lemma SFltb_asym (a b : float) : SFltb a b = true -> SFltb b a = false.
Proof.
  unfold SFltb, SFcompare.
  destruct a as [s1|s1| |s1 m1 e1], b as [s2|s2| |s2 m2 e2];
    try (destruct s1; discriminate || reflexivity);
    try (destruct s2; discriminate || reflexivity);
    try (destruct s1, s2; discriminate || reflexivity);
    try discriminate; try reflexivity.
  rewrite (Z.compare_antisym e1 e2).
  change (Pos.compare_cont Eq m2 m1) with (Pos.compare m2 m1).
  change (Pos.compare_cont Eq m1 m2) with (Pos.compare m1 m2).
  rewrite (Pos.compare_antisym m1 m2).
  destruct s1, s2, (e1 ?= e2), (m1 ?= m2)%positive; simpl;
    discriminate || reflexivity.
Qed.

(** X5. In an epoch that is not a multiple of 10, a completed iteration
    never lowers [best_iou]: it leaves it as it was, or replaces it by a
    strictly greater IOU.  Only the checkpoints forced every tenth epoch
    can lower it. *)
Theorem best_iou_drops_only_when_forced
    fw args sf tb net dev td vd opt epoch best h d best' :
  epoch_body fw args sf tb net dev td vd opt epoch best h = (d, Ret best') ->
  epoch mod 10 <> 0 ->
  PyFloat.gtb best best' = false /\
  (best' = best \/ PyFloat.gtb best' best = true).
Proof.
  intros H Hmod. apply epoch_body_completed in H.
  destruct H as (tr & te & dropped & sd & d_train & d_val & _ & _ & _ & _ & ->).
  assert (H0 : epoch <> 0) by (intros ->; now apply Hmod).
  unfold save_condition.
  apply Z.eqb_neq in Hmod, H0. rewrite Hmod, H0, !orb_false_r.
  unfold PyFloat.gtb.
  destruct (SFltb best (iou_of te)) eqn:Hgt.
  - split; [now apply SFltb_asym|now right].
  - split; [apply SFltb_irrefl|now left].
Qed.

Lemma best_iou_drops_only_when_forced_witness :
  PyFloat.gtb PyFloat.zero (PyFloat.int_quotient 9 10) = false /\
  (PyFloat.int_quotient 9 10 = PyFloat.zero \/
   PyFloat.gtb (PyFloat.int_quotient 9 10) PyFloat.zero = true).
Proof.
  apply (best_iou_drops_only_when_forced sample_fw sample_cli "/out" (VObj 0)
           (VObj 12) (VObj 11) (VObj 4) (VObj 6) (VObj 14) 3 PyFloat.zero []
           (fst (epoch_body sample_fw sample_cli "/out" (VObj 0) (VObj 12) (VObj 11)
                   (VObj 4) (VObj 6) (VObj 14) 3 PyFloat.zero []))).
  - vm_compute. reflexivity.
  - vm_compute. discriminate.
Defined.

(** ** The redirection of [sys.stdout] *)

(** What [sys.stdout] is after the events [d], [None] standing for the
    original stream. *)
Definition stdout_after (d : list event) : option value :=
  fold_left
    (fun t ev => match ev with SetStdout t' => t' | Ev _ _ => t end) d None.

Definition is_call (ev : event) : Prop :=
  match ev with
  | Ev _ _ => True
  | SetStdout _ => False
  end.

Lemma stdout_calls_only d t :
  Forall is_call d ->
  fold_left (fun t ev => match ev with SetStdout t' => t' | Ev _ _ => t end) d t = t.
Proof.
  intros H. revert t. induction H as [|ev d Hev _ IH]; intros t; simpl.
  - reflexivity.
  - destruct ev; [apply IH|contradiction].
Qed.

Lemma epoch_loop_calls_only fw args sf tb net dev td vd opt :
  emits is_call (epoch_loop fw args sf tb net dev td vd opt).
Proof.
  unfold epoch_loop, epoch_body, log_losses.
  repeat first
    [ apply emits_for_each; intros ? ? _
    | emits_step ];
    exact I.
Qed.

(** [Q] holds of a computation that stops at a call, and is kept when a
    call that returned is put in front. *)
Definition post {A} (Q : list event -> outcome A -> Prop) (m : M A) : Prop :=
  forall h, Q (fst (m h)) (snd (m h)).

Lemma post_call_bind {B} fw (Q : list event -> outcome B -> Prop) c
    (k : value -> M B) :
  (forall e, Q [Ev c (Raise e)] (Raise e)) ->
  (forall v d r, Q d r -> Q (Ev c (Ret v) :: d) r) ->
  (forall v, post Q (k v)) ->
  post Q (bind (do_call fw c) k).
Proof.
  intros Hraise Hret Hk h. unfold bind, do_call.
  destruct (fw h c) as [v|e]; simpl.
  - specialize (Hk v (h ++ [Ev c (Ret v)])%list).
    destruct (k v (h ++ [Ev c (Ret v)])%list) as [d2 r]. simpl in *.
    now apply Hret.
  - apply Hraise.
Qed.

Lemma post_call_then {B} fw (Q : list event -> outcome B -> Prop)
    (Q' : value -> list event -> outcome B -> Prop) c (k : value -> M B) :
  (forall e, Q [Ev c (Raise e)] (Raise e)) ->
  (forall v d r, Q' v d r -> Q (Ev c (Ret v) :: d) r) ->
  (forall v, post (Q' v) (k v)) ->
  post Q (bind (do_call fw c) k).
Proof.
  intros Hraise Hret Hk h. unfold bind, do_call.
  destruct (fw h c) as [v|e]; simpl.
  - specialize (Hk v (h ++ [Ev c (Ret v)])%list).
    destruct (k v (h ++ [Ev c (Ret v)])%list) as [d2 r]. simpl in *.
    now apply Hret.
  - apply Hraise.
Qed.

(** [sys.stdout] is left at the file [f] only by a run whose last three
    events are the opening of [arch.txt], the redirection, and a [summary]
    that raised. *)
Definition left_redirected (args : Args) (sf : string) (d : list event)
    (r : outcome unit) : Prop :=
  forall f,
    stdout_after d = Some f ->
    exists d0 net e,
      d = (d0 ++ [ Ev (open_ (PyStr.os_path_join sf "arch.txt") "w") (Ret f);
                   SetStdout (Some f);
                   Ev (summary net (1 * use_depth args + 3 * use_rgb args, 300, 300))
                      (Raise e) ])%list /\
      r = Raise e.

(** The same, from the redirection on. *)
Definition left_redirected_to (args : Args) (f : value) (d : list event)
    (r : outcome unit) : Prop :=
  forall f',
    stdout_after d = Some f' ->
    f' = f /\
    exists net e,
      d = [ SetStdout (Some f);
            Ev (summary net (1 * use_depth args + 3 * use_rgb args, 300, 300))
               (Raise e) ] /\
      r = Raise e.

Lemma left_redirected_raise args sf c e :
  left_redirected args sf [Ev c (Raise e)] (Raise e).
Proof. intros f H. discriminate. Qed.

Lemma left_redirected_cons args sf c v d r :
  left_redirected args sf d r -> left_redirected args sf (Ev c (Ret v) :: d) r.
Proof.
  intros H f Hf. destruct (H f Hf) as (d0 & net & e & -> & ->).
  now exists (Ev c (Ret v) :: d0), net, e.
Qed.

Lemma left_redirected_open args sf f d r :
  left_redirected_to args f d r ->
  left_redirected args sf
    (Ev (open_ (PyStr.os_path_join sf "arch.txt") "w") (Ret f) :: d) r.
Proof.
  intros H f' Hf. destruct (H f' Hf) as (-> & net & e & -> & ->).
  now exists [], net, e.
Qed.

Lemma redirected_part fw args sf tb net dev td vd opt f :
  post (left_redirected_to args f)
    (emit (SetStdout (Some f)) ;;;
     do_call fw (summary net (1 * use_depth args + 3 * use_rgb args, 300, 300)) ;;;
     emit (SetStdout None) ;;;
     do_call fw (file_close f) ;;;
     epoch_loop fw args sf tb net dev td vd opt ;;;
     ret tt).
Proof.
  intros h.
  match goal with |- context [fst (?m h)] => destruct (m h) as [d r] eqn:E end.
  cbn [fst snd].
  unfold bind at 1, emit at 1 in E. unfold bind at 1, do_call at 1 in E.
  destruct (fw _ _) as [v|e].
  - unfold bind at 1, emit at 1 in E.
    match type of E with
    | context [bind ?m ?k ?h0] =>
        assert (Hc : emits is_call (bind m k));
        [|specialize (Hc h0); destruct (bind m k h0) as [d3 r3]]
    end.
    { apply emits_bind; [apply emits_do_call; intros; exact I|intros ?].
      apply emits_bind; [apply epoch_loop_calls_only|intros ?; apply emits_ret]. }
    injection E as <- <-. cbn [fst snd app] in *.
    intros f' Hf. unfold stdout_after in Hf. cbn [fold_left] in Hf.
    rewrite stdout_calls_only in Hf by exact Hc. discriminate.
  - injection E as <- <-. cbn [app].
    intros f' Hf. injection Hf as <-. split; [reflexivity|]. now exists net, e.
Qed.

(** X6. [sys.stdout] is restored by every [run] that returns.  It is left
    pointing at the file [arch.txt] exactly when the [summary] printed into
    that file raised: the run then ends at once with that exception, without
    restoring the stream or closing the file. *)
Theorem stdout_restored_unless_summary_raises fw args sf lf h :
  (snd (run fw args sf lf h) = Ret tt ->
   stdout_after (fst (run fw args sf lf h)) = None) /\
  left_redirected args sf (fst (run fw args sf lf h)) (snd (run fw args sf lf h)).
Proof.
  assert (H : post (left_redirected args sf) (run fw args sf lf)).
  { unfold run. cbv zeta.
    do 17 (apply post_call_bind;
           [apply left_redirected_raise|apply left_redirected_cons|intros ?]).
    apply post_call_then with (Q' := left_redirected_to args);
      [apply left_redirected_raise|apply left_redirected_open|intros f].
    apply redirected_part. }
  split; [|apply H].
  intros Hr. specialize (H h).
  destruct (stdout_after (fst (run fw args sf lf h))) as [f|] eqn:E; [|reflexivity].
  destruct (H f E) as (_ & _ & e & _ & Hraise). congruence.
Qed.

(** As [sample_fw], but the [summary] that is printed into [arch.txt]
    raises. *)
Definition summary_fails_fw (h : history) (c : call) : outcome value :=
  match c, List.last h (SetStdout None) with
  | summary _ _, SetStdout (Some _) => Raise (Raised "RuntimeError")
  | _, _ => sample_fw h c
  end.

Lemma stdout_restored_unless_summary_raises_witness :
  stdout_after (fst (run sample_fw no_channels_cli "/out" "/out/logs" [])) = None /\
  exists d0 net e,
    fst (run summary_fails_fw sample_cli "/out" "/out/logs" [])
    = (d0 ++ [ Ev (open_ (PyStr.os_path_join "/out" "arch.txt") "w")
                  (Ret (VObj 17));
               SetStdout (Some (VObj 17));
               Ev (summary net (1 * use_depth sample_cli + 3 * use_rgb sample_cli,
                                300, 300)) (Raise e) ])%list /\
    snd (run summary_fails_fw sample_cli "/out" "/out/logs" []) = Raise e.
Proof.
  split.
  - apply (proj1 (stdout_restored_unless_summary_raises sample_fw no_channels_cli
                    "/out" "/out/logs" [])).
    vm_compute. reflexivity.
  - apply (proj2 (stdout_restored_unless_summary_raises summary_fails_fw
                    sample_cli "/out" "/out/logs" []) (VObj 17)).
    vm_compute. reflexivity.
Defined.

(** ** How [main] treats the output folders *)

Definition is_call_of (c : call) (ev : event) : Prop := exists r, ev = Ev c r.

(** What [main] does around a folder, as a condition on an event [ev] and
    the event [prev] before it: after [exists()] said yes comes the
    [rmtree] of that folder, after it said no, or after the [rmtree]
    returned, comes the [mkdir] of its [logs] folder; and an [rmtree] or a
    [mkdir] comes after nothing else. *)
Definition folder_step (prev : option event) (ev : event) : Prop :=
  match prev with
  | Some (Ev (Path_exists p) (Ret v)) =>
      if truthy v then is_call_of (shutil_rmtree p) ev
      else is_call_of (Path_mkdir (PyStr.joinpath p "logs") true) ev
  | Some (Ev (shutil_rmtree p) (Ret _)) =>
      is_call_of (Path_mkdir (PyStr.joinpath p "logs") true) ev
  | _ =>
      match ev with
      | Ev (shutil_rmtree _) _ => False
      | Ev (Path_mkdir _ _) _ => False
      | _ => True
      end
  end.

(** Every event of [d] is as [ok] wants after the one before it, [prev]
    being the event before the first. *)
Fixpoint chained (ok : option event -> event -> Prop) (prev : option event)
    (d : list event) : Prop :=
  match d with
  | [] => True
  | ev :: d' => ok prev ev /\ chained ok (Some ev) d'
  end.

(** No folder is waiting for its [rmtree] or [mkdir]. *)
Definition calm (prev : option event) : Prop :=
  match prev with
  | Some (Ev (Path_exists _) (Ret _)) => False
  | Some (Ev (shutil_rmtree _) (Ret _)) => False
  | _ => True
  end.

(** An event that is not about folders. *)
Definition plain (ev : event) : Prop :=
  match ev with
  | Ev (Path_exists _) _ => False
  | Ev (shutil_rmtree _) _ => False
  | Ev (Path_mkdir _ _) _ => False
  | _ => True
  end.

(** Started after an event that satisfies [P], [m] keeps to [folder_step],
    and is calm when it returns. *)
Definition tidy_when {A} (P : option event -> Prop) (m : M A) : Prop :=
  forall h prev,
    P prev ->
    chained folder_step prev (fst (m h)) /\
    (forall a, snd (m h) = Ret a -> calm (last_from prev (fst (m h)))).

Lemma chained_app ok prev d1 d2 :
  chained ok prev d1 -> chained ok (last_from prev d1) d2 ->
  chained ok prev (d1 ++ d2).
Proof.
  revert prev. induction d1 as [|ev d1 IH]; intros prev H1 H2; simpl in *.
  - exact H2.
  - destruct H1 as [Hev H1]. split; [exact Hev|]. now apply IH.
Qed.

Lemma plain_step prev ev : calm prev -> plain ev -> folder_step prev ev.
Proof.
  intros Hc Hp. unfold folder_step.
  destruct prev as [[[] [v|e]|]|]; simpl in *; try contradiction;
    destruct ev as [[] r|]; simpl in *; try contradiction; exact I.
Qed.

Lemma plain_calm ev : plain ev -> calm (Some ev).
Proof. destruct ev as [[] [v|e]|]; simpl; auto. Qed.

Lemma chained_plain d :
  Forall plain d ->
  forall prev, calm prev ->
    chained folder_step prev d /\ calm (last_from prev d).
Proof.
  induction 1 as [|ev d Hev _ IH]; intros prev Hc; simpl.
  - now split.
  - destruct (IH (Some ev) (plain_calm ev Hev)) as [H1 H2].
    split; [|exact H2]. split; [now apply plain_step|exact H1].
Qed.

Lemma tidy_plain {A} (m : M A) : emits plain m -> tidy_when calm m.
Proof.
  intros Hm h prev Hc. destruct (chained_plain _ (Hm h) prev Hc). now split.
Qed.

Lemma tidy_weaken {A} (P Q : option event -> Prop) (m : M A) :
  (forall prev, P prev -> Q prev) -> tidy_when Q m -> tidy_when P m.
Proof. intros HPQ Hm h prev Hp. apply Hm. now apply HPQ. Qed.

Lemma tidy_bind {A B} (m : M A) (k : A -> M B) :
  tidy_when calm m -> (forall a, tidy_when calm (k a)) ->
  tidy_when calm (bind m k).
Proof.
  intros Hm Hk h prev Hc. unfold bind. destruct (Hm h prev Hc) as [H1 H1'].
  destruct (m h) as [d1 [a|e]]; simpl in *.
  - destruct (Hk a (h ++ d1)%list (last_from prev d1) (H1' a eq_refl)) as [H2 H2'].
    destruct (k a (h ++ d1)%list) as [d2 r]. simpl in *.
    split; [now apply chained_app|]. rewrite last_from_app. exact H2'.
  - split; [exact H1|discriminate].
Qed.

Lemma tidy_for_each {A S} (body : A -> S -> M S) xs :
  (forall x s, tidy_when calm (body x s)) ->
  forall s, tidy_when calm (for_each xs body s).
Proof.
  intros Hb. induction xs as [|x xs IH]; intros s; simpl.
  - intros h prev Hc. simpl. now split.
  - apply tidy_bind; [apply Hb|apply IH].
Qed.

Lemma tidy_call_bind {B} fw (P : option event -> Prop) c (k : value -> M B) :
  (forall prev r, P prev -> folder_step prev (Ev c r)) ->
  (forall v, tidy_when (eq (Some (Ev c (Ret v)))) (k v)) ->
  tidy_when P (bind (do_call fw c) k).
Proof.
  intros Hc Hk h prev Hp. unfold bind, do_call.
  destruct (fw h c) as [v|e]; simpl.
  - destruct (Hk v (h ++ [Ev c (Ret v)])%list _ eq_refl) as [H2 H2'].
    destruct (k v (h ++ [Ev c (Ret v)])%list) as [d2 r]. simpl in *.
    split; [|exact H2']. split; [now apply Hc|exact H2].
  - split; [|discriminate]. split; [now apply Hc|exact I].
Qed.

Lemma tidy_bind_ret {A B} (P : option event -> Prop) (a : A) (k : A -> M B) :
  tidy_when P (k a) -> tidy_when P (bind (ret a) k).
Proof.
  intros Hk h prev Hp. unfold bind, ret.
  specialize (Hk (h ++ [])%list prev Hp).
  destruct (k a (h ++ [])%list) as [d2 r]. exact Hk.
Qed.

Lemma configured_plain args sf lf ev : configured args sf lf ev -> plain ev.
Proof. destruct ev as [[] r|]; simpl; auto. Qed.

Lemma tidy_main_body fw home t args :
  tidy_when calm (main_body fw home t args).
Proof.
  unfold main_body. cbv zeta.
  assert (Hrest : forall a sf lf (p : Args),
    tidy_when calm
      (do_call fw (print a) ;;; run fw a sf lf ;;; ret p)).
  { intros a sf lf p. apply tidy_plain.
    apply emits_bind; [apply emits_do_call; intros; exact I|intros ?].
    apply emits_bind; [|intros ?; apply emits_ret].
    eapply emits_weaken; [|apply run_configured]. apply configured_plain. }
  apply tidy_call_bind.
  { intros prev r Hc. unfold folder_step.
    destruct prev as [[[] [v|e]|]|]; simpl in *; try contradiction; exact I. }
  intros ex.
  destruct (truthy ex) eqn:Hex.
  - apply tidy_call_bind.
    { intros prev r <-. simpl. rewrite Hex. now exists r. }
    intros v1. apply tidy_call_bind.
    { intros prev r <-. simpl. now exists r. }
    intros v2. eapply tidy_weaken; [|apply Hrest]. now intros prev <-.
  - apply tidy_bind_ret. apply tidy_call_bind.
    { intros prev r <-. simpl. rewrite Hex. now exists r. }
    intros v2. eapply tidy_weaken; [|apply Hrest]. now intros prev <-.
Qed.

Lemma chained_nth ok d :
  forall prev,
    chained ok prev d ->
    forall i ev,
      nth_error d i = Some ev ->
      ok (match i with O => prev | S j => nth_error d j end) ev.
Proof.
  induction d as [|x d IH]; intros prev H i ev Hi.
  - destruct i; discriminate.
  - destruct H as [Hx Hd]. destruct i as [|j]; simpl in Hi.
    + injection Hi as <-. exact Hx.
    + specialize (IH (Some x) Hd j ev Hi). destruct j; exact IH.
Qed.

(** X7. However [main] ends, every event of it is as [folder_step] wants
    after the event before it: [main] removes a folder only directly after
    [exists()] on that same folder returned true, and always does so then;
    it creates a [logs] folder only directly after its parent was found
    absent or was removed, and always does so then; and no folder is
    removed or created at any other point. *)
Theorem folders_removed_only_when_found fw home h i ev :
  nth_error (fst (main fw home h)) i = Some ev ->
  folder_step
    (match i with O => None | S j => nth_error (fst (main fw home h)) j end) ev.
Proof.
  assert (H : tidy_when calm (main fw home)).
  { unfold main, parse_args. cbv zeta.
    apply tidy_bind.
    - apply tidy_plain.
      apply emits_bind; [apply emits_do_call; intros; exact I|intros ?].
      apply emits_as_namespace.
    - intros parsed. apply tidy_bind; [|intros ?; apply tidy_plain, emits_ret].
      apply tidy_for_each. intros t args. apply tidy_main_body. }
  apply chained_nth. now apply (H h None).
Qed.

(** As [sample_fw], but every output folder exists already. *)
Definition folders_exist_fw (h : history) (c : call) : outcome value :=
  match c with
  | Path_exists _ => Ret (VBool true)
  | _ => sample_fw h c
  end.

Lemma folders_removed_only_when_found_witness :
  folder_step
    (Some (Ev (Path_exists "/home/u/Project/gmdata/datasets/models/gg/small_data/gmd")
              (Ret (VBool true))))
    (Ev (shutil_rmtree "/home/u/Project/gmdata/datasets/models/gg/small_data/gmd")
        (Ret VNone)).
Proof.
  apply (folders_removed_only_when_found folders_exist_fw "/home/u" [] 2).
  vm_compute. reflexivity.
Defined.

(** ** Where the script writes *)

(** The path an event is given to remove ([shutil.rmtree]) or to write
    into ([SummaryWriter], [open], [torch.save]). *)
Definition written (ev : event) : list string :=
  match ev with
  | Ev (shutil_rmtree p) _ => [p]
  | Ev (SummaryWriter p) _ => [p]
  | Ev (open_ p _) _ => [p]
  | Ev (torch_save _ p) _ => [p]
  | _ => []
  end.

(** The folder a [mkdir] is asked to create, with its [parents] flag:
    when the flag is set, [mkdir] also creates the ancestors of the folder
    that do not exist. *)
Definition made (ev : event) : list (string * bool) :=
  match ev with
  | Ev (Path_mkdir p parents) _ => [(p, parents)]
  | _ => []
  end.

Lemma prefix_app (a b : string) : prefix a (a ++ b) = true.
Proof.
  induction a as [|c a IH]; simpl; [now destruct b|].
  destruct (ascii_dec c c) as [_|Hc]; [exact IH|now contradiction Hc].
Qed.

Lemma prefix_refl (a : string) : prefix a a = true.
Proof.
  induction a as [|c a IH]; simpl; [reflexivity|].
  destruct (ascii_dec c c) as [_|Hc]; [exact IH|now contradiction Hc].
Qed.

Lemma prefix_trans (a b c : string) :
  prefix a b = true -> prefix b c = true -> prefix a c = true.
Proof.
  revert b c. induction a as [|x a IH]; intros b c Hab Hbc; [now destruct c|].
  destruct b as [|y b]; [discriminate|]. destruct c as [|z c]; [discriminate|].
  simpl in *.
  destruct (ascii_dec x y) as [->|]; [|discriminate].
  destruct (ascii_dec y z) as [->|]; [|discriminate].
  eapply IH; eassumption.
Qed.

Lemma append_length (a b : string) :
  String.length (a ++ b) = (String.length a + String.length b)%nat.
Proof. induction a as [|c a IH]; simpl; congruence. Qed.

(** A file joined to a folder by [os.path.join] lies under the folder,
    unless its name is absolute. *)
Lemma os_path_join_prefix a b :
  prefix "/" b = false -> prefix a (PyStr.os_path_join a b) = true.
Proof.
  intros Hb. unfold PyStr.os_path_join. rewrite Hb.
  destruct ((String.length a =? 0)%nat || PyStr.ends_with_slash a);
    apply prefix_app.
Qed.

(** A segment joined to a path other than ['.'] lies under the path. *)
Lemma joinpath_prefix p seg :
  String.eqb p "." = false -> prefix p (PyStr.joinpath p seg) = true.
Proof.
  intros Hp. unfold PyStr.joinpath. rewrite Hp.
  destruct (PyStr.ends_with_slash p); apply prefix_app.
Qed.

Lemma joinpath_length p seg :
  (String.length seg <= String.length (PyStr.joinpath p seg))%nat.
Proof.
  unfold PyStr.joinpath. destruct (String.eqb p "."); [lia|].
  destruct (PyStr.ends_with_slash p); rewrite !append_length; simpl; lia.
Qed.

Lemma joinpath_not_dot p seg :
  (2 <= String.length seg)%nat -> String.eqb (PyStr.joinpath p seg) "." = false.
Proof.
  intros Hs. apply String.eqb_neq. intros H.
  pose proof (joinpath_length p seg) as Hl. rewrite H in Hl. simpl in Hl. lia.
Qed.

(** What [run] is given to write into lies under its save folder, the
    log folder apart; and [run] makes no folder. *)
Lemma configured_written args sf lf ev p :
  configured args sf lf ev -> In p (written ev) ->
  p = lf \/ prefix sf p = true.
Proof.
  destruct ev as [[] r|]; simpl; try contradiction; intros H [<-|[]].
  - now left.
  - destruct H as [-> _]. right. now apply os_path_join_prefix.
  - destruct H as (e & iou & _ & [->| ->]); right; now apply os_path_join_prefix.
Qed.

Lemma configured_made args sf lf ev : configured args sf lf ev -> made ev = [].
Proof.
  destruct ev as [[] r|]; simpl; try reflexivity; contradiction.
Qed.

(** The folder of the tag [t] under [OUT_PATH]. *)
Definition tag_folder (home t : string) : string :=
  PyStr.joinpath (OUT_PATH home) t.

(** What an iteration of [main] for the tag [t] may remove, write into
    and create. *)
Definition stays_in (home t : string) (ev : event) : Prop :=
  (forall p, In p (written ev) -> prefix (tag_folder home t) p = true) /\
  (forall p parents, In (p, parents) (made ev) ->
     p = PyStr.joinpath (tag_folder home t) "logs" /\ parents = true).

Lemma main_body_stays_in fw home t args :
  In t ["gmd"; "cor"; "jaq"] ->
  emits (stays_in home t) (main_body fw home t args).
Proof.
  intros Ht. unfold main_body. cbv zeta. fold (tag_folder home t).
  assert (Hlogs :
    prefix (tag_folder home t) (PyStr.joinpath (tag_folder home t) "logs") = true).
  { apply joinpath_prefix. apply joinpath_not_dot.
    destruct Ht as [<-|[<-|[<-|[]]]]; simpl; lia. }
  repeat first
    [ eapply emits_weaken; [|apply run_configured];
      intros ev Hev; split;
      [ intros p Hp;
        destruct (configured_written _ _ _ _ _ Hev Hp) as [->|Hpre];
        [exact Hlogs|exact Hpre]
      | intros p parents Hp; rewrite (configured_made _ _ _ _ Hev) in Hp;
        contradiction ]
    | emits_step ].
  all: split; [intros p Hp|intros p parents Hp]; try contradiction;
    destruct Hp as [Hp|[]];
    first [ injection Hp as <- <-; now split
          | subst p; apply prefix_refl ].
Qed.

(** X8. However [main] ends, every path it gives to [shutil.rmtree],
    [SummaryWriter], [open] or [torch.save] starts with the path of the
    folder of one of its three tags, [OUT_PATH/gmd], [OUT_PATH/cor] or
    [OUT_PATH/jaq]; and the only folder it asks [mkdir] to create is the
    [logs] folder of such a tag, always with [parents=True], which lets
    [mkdir] create the missing ancestors of that folder as well. *)
Theorem main_paths_stay_in_tag_folders fw home h :
  Forall
    (fun ev => exists t, In t ["gmd"; "cor"; "jaq"] /\ stays_in home t ev)
    (fst (main fw home h)).
Proof.
  revert h. change (emits
    (fun ev => exists t, In t ["gmd"; "cor"; "jaq"] /\ stays_in home t ev)
    (main fw home)).
  unfold main, parse_args. cbv zeta.
  apply emits_bind.
  - apply emits_bind; [|intros ?; apply emits_as_namespace].
    apply emits_do_call. intros r. exists "gmd".
    split; [now left|]. split; [intros p []|intros p parents []].
  - intros parsed. apply emits_bind; [|intros ?; apply emits_ret].
    apply emits_for_each. intros t args Ht.
    eapply emits_weaken; [|apply main_body_stays_in; exact Ht].
    intros ev Hev. exists t. now split.
Qed.

(** ** A run without epochs *)

(** The calls of the epoch loop. *)
Definition epoch_call (ev : event) : Prop :=
  match ev with
  | Ev (train _ _ _ _ _ _ _) _ => True
  | Ev (validate _ _ _ _) _ => True
  | Ev (tb_add_scalar _ _ _ _) _ => True
  | Ev (torch_save _ _) _ => True
  | Ev (net_state_dict _) _ => True
  | _ => False
  end.

Lemma range_nonpositive n : n <= 0 -> range n = [].
Proof.
  intros Hn. unfold range. replace (Z.to_nat n) with 0%nat by lia. reflexivity.
Qed.

(** X9. With [args.epochs] zero or negative, [run] only sets up: however
    it ends it never trains, validates, writes a scalar or saves a
    checkpoint; and when it returns its events are exactly those of the
    set-up (the datasets, loaders, network and optimizer are built and
    [arch.txt] is written). *)
Theorem no_epochs_only_setup fw args sf lf h :
  epochs args <= 0 ->
  Forall (fun ev => ~ epoch_call ev) (fst (run fw args sf lf h)) /\
  (snd (run fw args sf lf h) = Ret tt ->
   exists sv, fst (run fw args sf lf h) = setup_events args sf lf sv).
Proof.
  intros Hn. split.
  - revert h. change (emits (fun ev => ~ epoch_call ev) (run fw args sf lf)).
    unfold run, epoch_loop. cbv zeta. rewrite (range_nonpositive _ Hn).
    cbn [for_each]. repeat emits_step; intros [].
  - intros Hr. destruct (run fw args sf lf h) as [d r] eqn:H. simpl in *. subst r.
    apply run_completed in H. destruct H as (sv & ds & best & -> & Hit).
    rewrite (range_nonpositive _ Hn) in Hit. inversion Hit; subst.
    exists sv. apply app_nil_r.
Qed.

Lemma no_epochs_only_setup_witness :
  Forall (fun ev => ~ epoch_call ev)
    (fst (run sample_fw (set_epochs sample_cli 0) "/out" "/out/logs" [])) /\
  exists sv,
    fst (run sample_fw (set_epochs sample_cli 0) "/out" "/out/logs" [])
    = setup_events (set_epochs sample_cli 0) "/out" "/out/logs" sv.
Proof.
  destruct (no_epochs_only_setup sample_fw (set_epochs sample_cli 0) "/out"
              "/out/logs" []) as [Hall Hdone].
  - simpl. lia.
  - split; [exact Hall|]. apply Hdone. vm_compute. reflexivity.
Defined.

(** ** The runs of [main] *)

(** The namespaces that [main] prints. *)
Definition printed (ev : event) : list Args :=
  match ev with
  | Ev (print a) _ => [a]
  | _ => []
  end.

Lemma shows_of_emits {X A} (f : event -> list X) (m : M A) :
  emits (fun ev => f ev = []) m -> shows f [] m.
Proof.
  intros Hm h. assert (H : flat_map f (fst (m h)) = []).
  { specialize (Hm h). induction Hm as [|ev d Hev _ IH]; simpl; [reflexivity|].
    now rewrite Hev, IH. }
  rewrite H. split; [now exists []|reflexivity].
Qed.

Lemma shows_for_each_invariant {X A S} (f : event -> list X) (g : A -> list X)
    (I : S -> Prop) (body : A -> S -> M S) xs :
  (forall x s, I s -> shows f (g x) (body x s)) ->
  (forall x s h d s', I s -> body x s h = (d, Ret s') -> I s') ->
  forall s, I s -> shows f (flat_map g xs) (for_each xs body s).
Proof.
  intros Hb HI. induction xs as [|x xs IH]; intros s Hs; simpl.
  - now apply shows_silent.
  - intros h. unfold bind.
    destruct (Hb x s Hs h) as [(rest1 & H1) H1'].
    destruct (body x s h) as [d1 [s1|e]] eqn:E; simpl in *.
    + assert (Hs1 : I s1) by (eapply HI; eassumption).
      destruct (IH s1 Hs1 (h ++ d1)%list) as [(rest2 & H2) H2'].
      destruct (for_each xs body s1 (h ++ d1)%list) as [d2 r]. simpl in *.
      rewrite flat_map_app, (H1' s1 eq_refl). split.
      * exists rest2. now rewrite H2, app_assoc.
      * intros b Hb'. now rewrite (H2' b Hb').
    + split; [|discriminate].
      exists (rest1 ++ flat_map g xs)%list. now rewrite H1, app_assoc.
Qed.

Lemma main_body_printed fw parsed home t a :
  main_invariant parsed a ->
  shows printed [main_args parsed home t] (main_body fw home t a).
Proof.
  intros Ha. unfold main_body. cbv zeta.
  fold (assigned home t a). rewrite (assigned_main_args parsed) by assumption.
  shows_step.
  apply shows_after.
  { destruct (truthy _);
      [apply shows_do_call; intros; reflexivity|now apply shows_silent]. }
  intros ?. shows_step. shows_step.
  apply shows_after; [|intros ?; now apply shows_silent].
  apply shows_of_emits. eapply emits_weaken; [|apply run_configured].
  intros ev Hev. destruct ev as [[] r|]; simpl in *; try reflexivity; contradiction.
Qed.

(** X10. [main] handles the tags in the order ['gmd'], ['cor'], ['jaq']:
    whatever the parser returned, the namespaces it prints (one before
    each run) are an initial part of the three namespaces of [main_args]
    in that order, and all three when [main] returns.  A run that fails
    ends [main]: the later tags are never started. *)
Theorem runs_in_tag_order fw home h parsed :
  fw h (ArgumentParser_parse_args "Train GG-CNN" parser_arguments)
  = Ret (VNamespace parsed) ->
  (exists rest,
      [ main_args parsed home "gmd"; main_args parsed home "cor";
        main_args parsed home "jaq" ]
      = (flat_map printed (fst (main fw home h)) ++ rest)%list) /\
  (snd (main fw home h) = Ret tt ->
   flat_map printed (fst (main fw home h))
   = [ main_args parsed home "gmd"; main_args parsed home "cor";
       main_args parsed home "jaq" ]).
Proof.
  intros Hp.
  assert (Hparse :
    parse_args fw h =
    ([Ev (ArgumentParser_parse_args "Train GG-CNN" parser_arguments)
         (Ret (VNamespace parsed))], Ret parsed)).
  { unfold parse_args, bind, do_call. rewrite Hp. reflexivity. }
  unfold main. cbv zeta. unfold bind at 1 3 5. rewrite Hparse.
  match goal with
  | |- context [bind ?m ?k ?h'] =>
      assert (Hm : shows printed
                     (flat_map (fun t => [main_args parsed home t])
                        ["gmd"; "cor"; "jaq"])
                     (bind m k));
      [|specialize (Hm h'); destruct (bind m k h') as [d r]]
  end.
  - apply shows_before; [|intros ?; now apply shows_silent].
    apply shows_for_each_invariant with (I := main_invariant parsed).
    + intros t a Ha. now apply main_body_printed.
    + intros t a h' d a' Ha Hb. eapply main_body_invariant; eassumption.
    + apply parsed_invariant.
  - cbn [fst snd app flat_map printed] in *. destruct Hm as [Hpre Hall].
    split; [exact Hpre|]. intros Hr. now apply (Hall tt).
Qed.

Lemma runs_in_tag_order_witness :
  flat_map printed (fst (main sample_fw "/home/u" []))
  = [ main_args sample_cli "/home/u" "gmd"; main_args sample_cli "/home/u" "cor";
      main_args sample_cli "/home/u" "jaq" ] /\
  flat_map printed (fst (main failing_fw "/home/u" []))
  = [ main_args sample_cli "/home/u" "gmd" ].
Proof.
  split.
  - apply (proj2 (runs_in_tag_order sample_fw "/home/u" [] sample_cli eq_refl)).
    apply (main_returns sample_fw sample_fw_cooperative).
  - vm_compute. reflexivity.
Defined.

(** ** The objects the epochs work on *)

(** The calls of the epoch loop are made on the objects [tb], [net],
    [dev], [td], [vd] and [opt]. *)
Definition wired (tb net dev td vd opt : value) (ev : event) : Prop :=
  match ev with
  | Ev (train _ n d t o _ _) _ => n = net /\ d = dev /\ t = td /\ o = opt
  | Ev (validate n d v _) _ => n = net /\ d = dev /\ v = vd
  | Ev (tb_add_scalar w _ _ _) _ => w = tb
  | Ev (net_state_dict n) _ => n = net
  | _ => True
  end.

Lemma epoch_body_wired fw args sf tb net dev td vd opt epoch best :
  emits (wired tb net dev td vd opt)
    (epoch_body fw args sf tb net dev td vd opt epoch best).
Proof.
  unfold epoch_body, log_losses.
  repeat first
    [ apply emits_for_each; intros ? ? _
    | emits_step ];
    auto.
Qed.

Lemma iterates_Forall {A S} (P : event -> Prop) (body : A -> S -> M S) :
  (forall x s, emits P (body x s)) ->
  forall xs s h ds s',
    iterates body xs s h ds s' -> Forall P (List.concat ds).
Proof.
  intros Hb xs s h ds s' Hit.
  induction Hit as [|x xs s h d s1 ds s' Hd _ IH]; simpl.
  - constructor.
  - apply Forall_app. split; [|exact IH].
    specialize (Hb x s h). now rewrite Hd in Hb.
Qed.

(** X11. In a [run] that completes, every epoch works on the objects of
    the set-up: [train] gets the network that [net.to(device)] returned,
    the loader that wraps the training dataset and the optimizer built on
    that network's parameters; [validate] gets the same network and the
    loader that wraps the validation dataset; the state dict is taken from
    that network; and every scalar goes to the one summary writer. *)
Theorem epochs_use_the_setup fw args sf lf h d :
  run fw args sf lf h = (d, Ret tt) ->
  exists sv d_loop,
    d = (setup_events args sf lf sv ++ d_loop)%list /\
    Forall
      (wired (sv_tb sv) (sv_net sv) (sv_device sv) (sv_train_data sv)
         (sv_val_data sv) (sv_optimizer sv))
      d_loop.
Proof.
  intros H. apply run_completed in H. destruct H as (sv & ds & best & -> & Hit).
  exists sv, (List.concat ds). split; [reflexivity|].
  eapply iterates_Forall; [|exact Hit].
  intros epoch b. apply epoch_body_wired.
Qed.

Lemma epochs_use_the_setup_witness :
  exists sv d_loop,
    fst (run sample_fw no_channels_cli "/out" "/out/logs" [])
    = (setup_events no_channels_cli "/out" "/out/logs" sv ++ d_loop)%list /\
    Forall
      (wired (sv_tb sv) (sv_net sv) (sv_device sv) (sv_train_data sv)
         (sv_val_data sv) (sv_optimizer sv))
      d_loop.
Proof.
  apply (epochs_use_the_setup sample_fw no_channels_cli "/out" "/out/logs" []).
  vm_compute. reflexivity.
Defined.

(** ** The names of the checkpoints *)

(** The number that a string of decimal digits writes, read from the
    left. *)
Definition digit_value (c : ascii) : Z := Z.of_nat (nat_of_ascii c - 48).

Fixpoint decimal_value (acc : Z) (s : string) : Z :=
  match s with
  | EmptyString => acc
  | String c s' => decimal_value (10 * acc + digit_value c) s'
  end.

Definition is_digit (c : ascii) : Prop := (48 <= nat_of_ascii c <= 57)%nat.

Fixpoint all_digits (s : string) : Prop :=
  match s with
  | EmptyString => True
  | String c s' => is_digit c /\ all_digits s'
  end.

Lemma digit_char_value d : 0 <= d < 10 -> digit_value (PyStr.digit_char d) = d.
Proof.
  intros Hd. unfold digit_value, PyStr.digit_char.
  rewrite nat_ascii_embedding by lia. lia.
Qed.

Lemma digit_char_is_digit d : 0 <= d < 10 -> is_digit (PyStr.digit_char d).
Proof.
  intros Hd. unfold is_digit, PyStr.digit_char.
  rewrite nat_ascii_embedding by lia. lia.
Qed.

Lemma decimal_value_app acc a b :
  decimal_value acc (a ++ b) = decimal_value (decimal_value acc a) b.
Proof. revert acc. induction a as [|c a IH]; intros acc; simpl; auto. Qed.

Lemma all_digits_app a b : all_digits a -> all_digits b -> all_digits (a ++ b).
Proof. induction a as [|c a IH]; simpl; tauto. Qed.

Lemma string_app_assoc (a b c : string) : (a ++ b) ++ c = a ++ (b ++ c).
Proof. induction a as [|x a IH]; simpl; congruence. Qed.

Lemma digits_aux_acc fuel : forall n acc,
  PyStr.digits_aux fuel n acc = PyStr.digits_aux fuel n "" ++ acc.
Proof.
  induction fuel as [|fuel IH]; intros n acc; simpl; [reflexivity|].
  destruct (n / 10 =? 0); [reflexivity|].
  rewrite (IH _ (String _ acc)), (IH _ (String _ "")).
  rewrite string_app_assoc. reflexivity.
Qed.

Lemma digits_aux_spec fuel : forall n,
  0 <= n < 2 ^ Z.of_nat fuel ->
  decimal_value 0 (PyStr.digits_aux fuel n "") = n /\
  all_digits (PyStr.digits_aux fuel n "").
Proof.
  induction fuel as [|fuel IH]; intros n Hn.
  - simpl in *. split; [lia|exact I].
  - rewrite Nat2Z.inj_succ, Z.pow_succ_r in Hn by lia.
    assert (Hmod : 0 <= n mod 10 < 10) by (apply Z.mod_pos_bound; lia).
    pose proof (Z.div_mod n 10 ltac:(lia)) as Hdm.
    cbn [PyStr.digits_aux]. destruct (Z.eqb_spec (n / 10) 0) as [H0|H0].
    + cbn [decimal_value all_digits]. rewrite digit_char_value by exact Hmod.
      split; [|split; [now apply digit_char_is_digit|exact I]].
      lia.
    + rewrite digits_aux_acc.
      assert (Hdiv : 0 <= n / 10 < 2 ^ Z.of_nat fuel).
      { split; [apply Z.div_pos; lia|].
        apply Z.div_lt_upper_bound; lia. }
      destruct (IH _ Hdiv) as [Hv Hd]. split.
      * rewrite decimal_value_app, Hv. cbn [decimal_value].
        rewrite digit_char_value by exact Hmod. lia.
      * apply all_digits_app; [exact Hd|].
        split; [now apply digit_char_is_digit|exact I].
Qed.

Lemma digits_spec n :
  0 <= n -> decimal_value 0 (PyStr.digits n) = n /\ all_digits (PyStr.digits n).
Proof.
  intros Hn. unfold PyStr.digits. apply digits_aux_spec.
  rewrite Nat2Z.inj_succ, Z2Nat.id by apply Z.log2_nonneg.
  split; [exact Hn|].
  destruct (Z.eq_dec n 0) as [->|H0]; [reflexivity|].
  apply Z.log2_spec. lia.
Qed.

Lemma zeros_spec k s :
  decimal_value 0 (PyStr.repeat_char "0" k ++ s) = decimal_value 0 s /\
  (all_digits s -> all_digits (PyStr.repeat_char "0" k ++ s)).
Proof.
  induction k as [|k [IH1 IH2]]; simpl; [tauto|].
  split; [exact IH1|]. intros Hs. split; [|now apply IH2].
  unfold is_digit. change (nat_of_ascii "0") with 48%nat. lia.
Qed.

(** ['%0<w>d' % n] writes [n] in decimal digits only, for [n >= 0]. *)
Lemma format_0d_spec w n :
  0 <= n ->
  decimal_value 0 (PyStr.format_0d w n) = n /\ all_digits (PyStr.format_0d w n).
Proof.
  intros Hn. unfold PyStr.format_0d.
  destruct (Z.ltb_spec n 0) as [|_]; [lia|].
  unfold PyStr.zfill. destruct (digits_spec n Hn) as [Hv Hd].
  destruct (zeros_spec (w - String.length (PyStr.digits n)) (PyStr.digits n))
    as [H1 H2].
  split; [now rewrite H1|now apply H2].
Qed.

(** Two strings of digits that are followed by ['_'] in equal strings are
    equal. *)
Lemma digits_before_underscore a b r1 r2 :
  all_digits a -> all_digits b ->
  a ++ String "_" r1 = b ++ String "_" r2 -> a = b.
Proof.
  revert b. induction a as [|x a IH]; intros b Ha Hb H.
  - destruct b as [|y b]; [reflexivity|].
    simpl in H. injection H as <- _. destruct Hb as [Hy _].
    unfold is_digit in Hy. change (nat_of_ascii "_") with 95%nat in Hy. lia.
  - destruct b as [|y b]; simpl in H.
    + injection H as -> _. destruct Ha as [Hx _].
      unfold is_digit in Hx. change (nat_of_ascii "_") with 95%nat in Hx. lia.
    + injection H as -> H. f_equal.
      apply (IH b); [apply Ha|apply Hb|exact H].
Qed.

Lemma append_inv_head (a b c : string) : a ++ b = a ++ c -> b = c.
Proof.
  induction a as [|x a IH]; simpl; intros H; [exact H|].
  injection H as H. now apply IH.
Qed.

Lemma os_path_join_relative sf a b :
  prefix "/" a = false -> prefix "/" b = false ->
  PyStr.os_path_join sf a = PyStr.os_path_join sf b -> a = b.
Proof.
  intros Ha Hb. unfold PyStr.os_path_join. rewrite Ha, Hb.
  destruct ((String.length sf =? 0)%nat || PyStr.ends_with_slash sf); intros H.
  - now apply append_inv_head in H.
  - apply append_inv_head in H. now injection H.
Qed.

Lemma checkpoint_epoch_of_path sf e1 e2 iou1 iou2 :
  0 <= e1 ->
  0 <= e2 ->
  PyStr.os_path_join sf (checkpoint_name e1 iou1)
  = PyStr.os_path_join sf (checkpoint_name e2 iou2) \/
  PyStr.os_path_join sf (statedict_name e1 iou1)
  = PyStr.os_path_join sf (statedict_name e2 iou2) ->
  e1 = e2.
Proof.
  intros H1 H2 H.
  destruct (format_0d_spec 2 e1 H1) as [Hv1 Hd1].
  destruct (format_0d_spec 2 e2 H2) as [Hv2 Hd2].
  assert (Hname :
    PyStr.format_0d 2 e1 ++ String "_" ("iou_" ++ PyStr.format_f 2 iou1)
    = PyStr.format_0d 2 e2 ++ String "_" ("iou_" ++ PyStr.format_f 2 iou2) \/
    PyStr.format_0d 2 e1
      ++ String "_" ("iou_" ++ PyStr.format_f 2 iou1 ++ "_statedict.pt")
    = PyStr.format_0d 2 e2
      ++ String "_" ("iou_" ++ PyStr.format_f 2 iou2 ++ "_statedict.pt")).
  { destruct H as [H|H]; [left|right];
      apply os_path_join_relative in H; try reflexivity;
      unfold checkpoint_name, statedict_name in H;
      apply (append_inv_head "epoch_") in H; exact H. }
  assert (Heq : PyStr.format_0d 2 e1 = PyStr.format_0d 2 e2).
  { destruct Hname as [Hn|Hn];
      eapply digits_before_underscore; eassumption. }
  rewrite <- Hv1, <- Hv2, Heq. reflexivity.
Qed.

(** X12. The names of the checkpoints tell the epochs apart: within one
    save folder, the model files of two different epochs have different
    paths, whatever the IOUs, and so have their state-dict files.  A run
    never overwrites the checkpoint of one epoch with that of another. *)
Theorem checkpoint_paths_distinct sf e1 e2 iou1 iou2 :
  0 <= e1 ->
  0 <= e2 ->
  e1 <> e2 ->
  PyStr.os_path_join sf (checkpoint_name e1 iou1)
  <> PyStr.os_path_join sf (checkpoint_name e2 iou2) /\
  PyStr.os_path_join sf (statedict_name e1 iou1)
  <> PyStr.os_path_join sf (statedict_name e2 iou2).
Proof.
  intros H1 H2 Hne.
  split; intros H; apply Hne;
    apply (checkpoint_epoch_of_path sf e1 e2 iou1 iou2 H1 H2); auto.
Qed.

Lemma checkpoint_paths_distinct_witness :
  PyStr.os_path_join "/out" (checkpoint_name 3 (PyFloat.int_quotient 1 2))
  <> PyStr.os_path_join "/out" (checkpoint_name 13 (PyFloat.int_quotient 1 2)) /\
  PyStr.os_path_join "/out" (statedict_name 3 (PyFloat.int_quotient 1 2))
  <> PyStr.os_path_join "/out" (statedict_name 13 (PyFloat.int_quotient 1 2)).
Proof.
  apply checkpoint_paths_distinct; lia.
Defined.

(** ** The configuration of the runs of [main] *)









